(** * validate_docs.py: a shallow embedding and its verified properties

    The program under study is [skills/scripts/validate_docs.py], a
    documentation validator.  It reads markdown files, runs five checks
    over the raw text of each (broken links, code-file references, the
    "last updated" stamp, required sections, TODO markers) and exits with
    status 1 when a document has an error.

    Modelling choices, stated once:
    - a Python [str] is a Rocq [string]; a character is one of the 256
      code points of Latin-1 ([ascii]), with Python's own classification
      of those code points for [\s], [\d] and [str.lower]; a file holds
      text already, so decoding errors are outside the model;
    - the patterns handed to [re] are written as values of [regex] and run
      by a backtracking matcher that tries alternatives in Python's order
      (leftmost start, leftmost alternative, greedy repetition);
    - an uncaught exception is a value [Raise e] of the result type [res];
    - the accumulators of a [DocValidator] ([self.errors],
      [self.warnings], [self.fixes_applied]) are threaded explicitly
      through the checkers;
    - a path is the list of its components (a leading [//], which pathlib
      keeps as a root of its own, is read as [/]); the file system is a
      function from resolved paths to what lives there, and has no
      symbolic links;
    - the file system answers every probe, where the operating system
      refuses some names: [os.stat] and [Path.resolve] raise for a name
      with a NUL character or beyond the limits on lengths; [FS.nameable]
      says which names the system takes;
    - [strftime] writes the year on four digits, which is what the C
      library does from the year 1000 on;
    - [datetime.now()] is an input;
    - what is printed is not modelled, except that the first [print] of
      [validate_file] computes the path relative to the project root,
      which can raise;
    - argument parsing and the discovery of documents by [glob] are not
      modelled: [main] starts from the list of documents. *)

From Stdlib Require Import List String Ascii ZArith Lia Bool Arith.
From Stdlib Require Import Sorted Permutation.
Import ListNotations.

Set Implicit Arguments.

Local Open Scope string_scope.
Local Open Scope list_scope.
Local Open Scope nat_scope.

Notation "a +++ b" := (String.append a b)
  (at level 60, right associativity) : string_scope.

(** ** Characters *)

Module Char.

Definition code (c : ascii) : nat := nat_of_ascii c.

(** [\d] on Latin-1: the ten ASCII digits. *)
Definition is_digit (c : ascii) : bool :=
  (48 <=? code c) && (code c <=? 57).

(** [\s] and [str.isspace] on Latin-1: TAB..CR, FS..US, SPACE, NEL, NBSP. *)
Definition is_space (c : ascii) : bool :=
  let n := code c in
  ((9 <=? n) && (n <=? 13)) || ((28 <=? n) && (n <=? 32))
  || (n =? 133) || (n =? 160).

(** [str.lower] on one Latin-1 code point. *)
Definition lower (c : ascii) : ascii :=
  let n := code c in
  if ((65 <=? n) && (n <=? 90))
     || ((192 <=? n) && (n <=? 222) && negb (n =? 215))
  then ascii_of_nat (n + 32) else c.

Definition eqb_ic (ic : bool) (a b : ascii) : bool :=
  if ic then Ascii.eqb (lower a) (lower b) else Ascii.eqb a b.

Definition newline : ascii := ascii_of_nat 10.
Definition backtick : ascii := ascii_of_nat 96.

End Char.

(** ** Strings *)

Module Str.

Definition chars (s : string) : list ascii := list_ascii_of_string s.
Definition of_chars (l : list ascii) : string := string_of_list_ascii l.

Definition lower (s : string) : string :=
  of_chars (map Char.lower (chars s)).

Fixpoint prefixb (p s : list ascii) : bool :=
  match p, s with
  | [], _ => true
  | a :: p', b :: s' => Ascii.eqb a b && prefixb p' s'
  | _ :: _, [] => false
  end.

(** [s.startswith(p)] *)
Definition startswith (p s : string) : bool := prefixb (chars p) (chars s).

Fixpoint infixb (p s : list ascii) : bool :=
  prefixb p s || match s with [] => false | _ :: s' => infixb p s' end.

(** [p in s] *)
Definition contains (p s : string) : bool := infixb (chars p) (chars s).

(** [s.replace(a, b)] for one-character [a] and [b]. *)
Definition replace_char (a b : ascii) (s : string) : string :=
  of_chars (map (fun c => if Ascii.eqb c a then b else c) (chars s)).

Fixpoint lstrip_chars (a : ascii) (l : list ascii) : list ascii :=
  match l with
  | c :: l' => if Ascii.eqb c a then lstrip_chars a l' else l
  | [] => []
  end.

(** [s.lstrip(a)] for a one-character [a]. *)
Definition lstrip (a : ascii) (s : string) : string :=
  of_chars (lstrip_chars a (chars s)).

(** [s[:n]] *)
Definition take (n : nat) (s : string) : string :=
  of_chars (firstn n (chars s)).

(** [sep.join(l)] *)
Fixpoint join (sep : string) (l : list string) : string :=
  match l with
  | [] => ""
  | [x] => x
  | x :: l' => x +++ sep +++ join sep l'
  end.

(** [s.split(sep)] for a one-character [sep]: the pieces between the
    separators, empty pieces included. *)
Fixpoint split_chars (sep : ascii) (cur : list ascii) (l : list ascii)
  : list string :=
  match l with
  | [] => [of_chars (rev cur)]
  | c :: l' =>
      if Ascii.eqb c sep then of_chars (rev cur) :: split_chars sep [] l'
      else split_chars sep (c :: cur) l'
  end.

Definition split (sep : ascii) (s : string) : list string :=
  split_chars sep [] (chars s).

(** Decimal rendering of an integer, as [str(n)].  A number has no more
    decimal digits than binary ones, which bounds the loop. *)
Fixpoint digits (fuel : nat) (n : N) (acc : list ascii) : list ascii :=
  match fuel with
  | 0 => acc
  | S f =>
      let d := ascii_of_N (48 + n mod 10) in
      if (n <? 10)%N then d :: acc else digits f (n / 10)%N (d :: acc)
  end.

Definition of_N (n : N) : string :=
  of_chars (digits (S (N.size_nat n)) n []).

Definition of_Z (z : Z) : string :=
  if (z <? 0)%Z then "-" +++ of_N (Z.to_N (- z)) else of_N (Z.to_N z).

(** [int(s)] for a string of ASCII digits. *)
Definition to_Z (s : string) : Z :=
  fold_left (fun acc c => 10 * acc + (Z.of_nat (Char.code c) - 48))%Z
            (chars s) 0%Z.

(** Zero padding on the left up to [w] characters, as [%02d], [%04d]. *)
Definition pad (w : nat) (s : string) : string :=
  of_chars (repeat "0"%char (w - String.length s)) +++ s.

End Str.

(** ** Regular expressions, as [re] runs them *)

Module Re.

Inductive regex : Type :=
| Eps                          (* the empty pattern *)
| Chr (c : ascii)              (* a literal character *)
| Cls (p : ascii -> bool)      (* a class: [\d], [\s], [.], [[^...]] *)
| Cat (r1 r2 : regex)          (* r1 r2 *)
| Alt (r1 r2 : regex)          (* r1|r2 *)
| Star (r : regex)             (* r*, greedy *)
| Grp (i : nat) (r : regex)    (* the i-th capturing group *)
| Bol.                         (* ^ under re.MULTILINE *)

(** [r+], [r{n}] and a run of literal characters. *)
Definition Plus (r : regex) : regex := Cat r (Star r).

Fixpoint Rep (n : nat) (r : regex) : regex :=
  match n with
  | 0 => Eps
  | S n' => Cat r (Rep n' r)
  end.

Fixpoint Lit (s : string) : regex :=
  match s with
  | EmptyString => Eps
  | String c s' => Cat (Chr c) (Lit s')
  end.

Definition digit : regex := Cls Char.is_digit.                         (* \d *)
Definition space : regex := Cls Char.is_space.                         (* \s *)
Definition dot : regex := Cls (fun c => negb (Ascii.eqb c Char.newline)). (* . *)
Definition none_of (cs : string) : regex :=                            (* [^cs] *)
  Cls (fun c => negb (existsb (Ascii.eqb c) (Str.chars cs))).
Definition one_of (cs : string) : regex :=                             (* [cs] *)
  Cls (fun c => existsb (Ascii.eqb c) (Str.chars cs)).

(** The state of a match in progress: the character before the current
    position (for [^]), the text still ahead, and the groups set so far. *)
Record mstate : Type := MState {
  prev : option ascii;
  rest : list ascii;
  caps : list (nat * list ascii)
}.

Definition at_line_start (st : mstate) : bool :=
  match prev st with
  | None => true
  | Some c => Ascii.eqb c Char.newline
  end.

Definition step (c : ascii) (s : list ascii) (st : mstate) : mstate :=
  MState (Some c) s (caps st).

(** The text consumed between two states of one match. *)
Definition consumed (st st' : mstate) : list ascii :=
  firstn (List.length (rest st) - List.length (rest st')) (rest st).

Definition set_group (i : nat) (w : list ascii) (st : mstate) : mstate :=
  MState (prev st) (rest st) ((i, w) :: caps st).

Fixpoint lookup (i : nat) (cs : list (nat * list ascii))
  : option (list ascii) :=
  match cs with
  | [] => None
  | (j, w) :: cs' => if Nat.eqb i j then Some w else lookup i cs'
  end.

(** The loop of a greedy star: one more round of [body] before trying to
    stop, and a round must consume a character.  [n] bounds the rounds;
    the length of the text ahead is always enough. *)
Fixpoint star_loop (A : Type)
  (body : mstate -> (mstate -> option A) -> option A)
  (k : mstate -> option A) (n : nat) (st0 : mstate) {struct n} : option A :=
  match n with
  | 0 => k st0
  | S n' =>
      match body st0
              (fun st1 =>
                 if List.length (rest st1) <? List.length (rest st0)
                 then star_loop body k n' st1 else None) with
      | Some a => Some a
      | None => k st0
      end
  end.

(** The backtracking matcher, in continuation-passing style: [k] is what
    remains to be matched after [r].  [ic] is [re.IGNORECASE]. *)
Fixpoint rmatch (A : Type) (ic : bool) (r : regex) (st : mstate)
  (k : mstate -> option A) {struct r} : option A :=
  match r with
  | Eps => k st
  | Chr c =>
      match rest st with
      | c' :: s => if Char.eqb_ic ic c c' then k (step c' s st) else None
      | [] => None
      end
  | Cls p =>
      match rest st with
      | c' :: s => if p c' then k (step c' s st) else None
      | [] => None
      end
  | Cat r1 r2 => rmatch ic r1 st (fun st1 => rmatch ic r2 st1 k)
  | Alt r1 r2 =>
      match rmatch ic r1 st k with
      | Some a => Some a
      | None => rmatch ic r2 st k
      end
  | Star r1 => star_loop (rmatch ic r1) k (List.length (rest st)) st
  | Grp i r1 =>
      rmatch ic r1 st (fun st1 => k (set_group i (consumed st st1) st1))
  | Bol => if at_line_start st then k st else None
  end.

(** What it means for [r] to match between two states, stated without
    reference to any search order. *)
Inductive matches (ic : bool) : regex -> mstate -> mstate -> Prop :=
| M_Eps : forall st, matches ic Eps st st
| M_Chr : forall c c' s st,
    rest st = c' :: s -> Char.eqb_ic ic c c' = true ->
    matches ic (Chr c) st (step c' s st)
| M_Cls : forall (p : ascii -> bool) c' s st,
    rest st = c' :: s -> p c' = true ->
    matches ic (Cls p) st (step c' s st)
| M_Cat : forall r1 r2 a b c,
    matches ic r1 a b -> matches ic r2 b c -> matches ic (Cat r1 r2) a c
| M_AltL : forall r1 r2 a b, matches ic r1 a b -> matches ic (Alt r1 r2) a b
| M_AltR : forall r1 r2 a b, matches ic r2 a b -> matches ic (Alt r1 r2) a b
| M_Star0 : forall r st, matches ic (Star r) st st
| M_StarS : forall r a b c,
    matches ic r a b -> matches ic (Star r) b c -> matches ic (Star r) a c
| M_Grp : forall i r a b,
    matches ic r a b -> matches ic (Grp i r) a (set_group i (consumed a b) b)
| M_Bol : forall st, at_line_start st = true -> matches ic Bol st st.

(** The words of a pattern, with anchors and groups set aside. *)
Inductive lang (ic : bool) : regex -> list ascii -> Prop :=
| L_Eps : lang ic Eps []
| L_Chr : forall c c', Char.eqb_ic ic c c' = true -> lang ic (Chr c) [c']
| L_Cls : forall (p : ascii -> bool) c', p c' = true -> lang ic (Cls p) [c']
| L_Cat : forall r1 r2 w1 w2,
    lang ic r1 w1 -> lang ic r2 w2 -> lang ic (Cat r1 r2) (w1 ++ w2)
| L_AltL : forall r1 r2 w, lang ic r1 w -> lang ic (Alt r1 r2) w
| L_AltR : forall r1 r2 w, lang ic r2 w -> lang ic (Alt r1 r2) w
| L_Star0 : forall r, lang ic (Star r) []
| L_StarS : forall r w1 w2,
    lang ic r w1 -> lang ic (Star r) w2 -> lang ic (Star r) (w1 ++ w2)
| L_Grp : forall i r w, lang ic r w -> lang ic (Grp i r) w
| L_Bol : lang ic Bol [].

(** Patterns that can match the empty word, and patterns in which no
    starred part can: every pattern of this program is one of the latter. *)
Fixpoint nullable (r : regex) : bool :=
  match r with
  | Eps | Bol | Star _ => true
  | Chr _ | Cls _ => false
  | Cat r1 r2 => nullable r1 && nullable r2
  | Alt r1 r2 => nullable r1 || nullable r2
  | Grp _ r1 => nullable r1
  end.

Fixpoint star_ok (r : regex) : bool :=
  match r with
  | Eps | Bol | Chr _ | Cls _ => true
  | Cat r1 r2 | Alt r1 r2 => star_ok r1 && star_ok r2
  | Star r1 => negb (nullable r1) && star_ok r1
  | Grp _ r1 => star_ok r1
  end.

(** The character before the position reached after reading [l]. *)
Definition prev_after (p : option ascii) (l : list ascii) : option ascii :=
  fold_left (fun _ c => Some c) l p.

(** [r] matches somewhere in the text, and the state it ends in. *)
Definition occurs_with (ic : bool) (r : regex) (text : string)
  (st' : mstate) : Prop :=
  exists l1 l2, Str.chars text = l1 ++ l2
    /\ matches ic r (MState (prev_after None l1) l2 []) st'.

Definition occurs (ic : bool) (r : regex) (text : string) : Prop :=
  exists st', occurs_with ic r text st'.

(** Patterns without groups leave the groups as they are. *)
Fixpoint group_free (r : regex) : bool :=
  match r with
  | Grp _ _ => false
  | Cat r1 r2 | Alt r1 r2 => group_free r1 && group_free r2
  | Star r1 => group_free r1
  | _ => true
  end.

(** A match object: where it starts, [group(0)], and the numbered groups. *)
Record mobj : Type := MObj {
  m_start : nat;
  m_text : list ascii;
  m_caps : list (nat * list ascii)
}.

(** [m.group(i)] for [i >= 1]; a group that took no part is [None] for
    [re.search] and the empty string in the tuples of [re.findall]. *)
Definition cap (i : nat) (cs : list (nat * list ascii)) : string :=
  match lookup i cs with
  | Some w => Str.of_chars w
  | None => ""
  end.

Definition group (i : nat) (m : mobj) : string := cap i (m_caps m).

Definition match_at (ic : bool) (r : regex) (p : option ascii)
  (s : list ascii) (pos : nat) : option mobj :=
  let st := MState p s [] in
  rmatch ic r st (fun st' => Some (MObj pos (consumed st st') (caps st'))).

(** [re.search]: the first position, from the left, where [r] matches. *)
Fixpoint search_from (ic : bool) (r : regex) (p : option ascii)
  (s : list ascii) (pos : nat) {struct s} : option mobj :=
  match match_at ic r p s pos with
  | Some m => Some m
  | None =>
      match s with
      | [] => None
      | c :: s' => search_from ic r (Some c) s' (S pos)
      end
  end.

Definition search (ic : bool) (r : regex) (s : string) : option mobj :=
  search_from ic r None (Str.chars s) 0.

(** [re.findall]: the matches from left to right, without overlap.  After
    a match of [n] characters the scan resumes [n] characters further
    ([skip] counts them down).  The patterns of this program match no
    empty string, which is the only case where [re] resumes on the spot. *)
Fixpoint findall_from (ic : bool) (r : regex) (p : option ascii)
  (s : list ascii) (pos skip : nat) {struct s} : list mobj :=
  match skip with
  | S skip' =>
      match s with
      | [] => []
      | c :: s' => findall_from ic r (Some c) s' (S pos) skip'
      end
  | 0 =>
      match match_at ic r p s pos with
      | Some m =>
          m :: match s with
               | [] => []
               | c :: s' =>
                   findall_from ic r (Some c) s' (S pos)
                     (pred (List.length (m_text m)))
               end
      | None =>
          match s with
          | [] => []
          | c :: s' => findall_from ic r (Some c) s' (S pos) 0
          end
      end
  end.

Definition findall (ic : bool) (r : regex) (s : string) : list mobj :=
  findall_from ic r None (Str.chars s) 0 0.

End Re.

Import Re.

(** ** Exceptions *)

(** The exceptions this program can let escape.  [ValueError] carries the
    reason in words of this model's own. *)
Inductive exn : Type :=
| ValueError (msg : string)
| IsADirectoryError.

Inductive res (A : Type) : Type :=
| Ok (a : A)
| Raise (e : exn).

Arguments Ok {A} a.
Arguments Raise {A} e.

Definition bind (A B : Type) (m : res A) (f : A -> res B) : res B :=
  match m with
  | Ok a => f a
  | Raise e => Raise e
  end.

Notation "x <- m ;; f" := (bind m (fun x => f))
  (at level 61, m at next level, right associativity).

(** A [for] loop whose body may raise: the first exception ends it. *)
Fixpoint for_each (A S : Type) (body : S -> A -> res S) (l : list A) (s : S)
  : res S :=
  match l with
  | [] => Ok s
  | a :: l' => s' <- body s a ;; for_each body l' s'
  end.

(** ** Paths and the file system *)

Module Path.

(** An absolute POSIX path, as the list of its components below [/]. *)
Definition path : Type := list string.

(** The components of a path written as text: pathlib drops empty
    components and single dots, and keeps [..].  Exactly two leading
    slashes, which pathlib keeps apart as a root of its own, are read as
    one. *)
Definition parts (s : string) : list string :=
  filter (fun c => negb (String.eqb c "" || String.eqb c "."))
         (Str.split "/" s).

(** [p / s]: an absolute [s] replaces [p]. *)
Definition joinpath (p : path) (s : string) : path :=
  if Str.startswith "/" s then parts s else p ++ parts s.

Definition parent (p : path) : path := removelast p.

Definition name (p : path) : string := last p "".

(** [p.resolve()] where nothing is a symbolic link: [..] removes the
    component before it, and stays at the root there.  The library raises
    [ValueError] for a path with a NUL character; the function is its
    outcome for the other paths. *)
Definition resolve (p : path) : path :=
  fold_left
    (fun acc c => if String.eqb c ".." then removelast acc else acc ++ [c])
    p [].

Fixpoint is_prefix (r p : list string) : bool :=
  match r, p with
  | [], _ => true
  | a :: r', b :: p' => String.eqb a b && is_prefix r' p'
  | _ :: _, [] => false
  end.

(** [p.relative_to(root)] compares components and raises when [root] is
    not a prefix of [p]. *)
Definition relative_to (p root : path) : res (list string) :=
  if is_prefix root p then Ok (skipn (List.length root) p)
  else Raise (ValueError "path is not in the subpath of the project root").

(** [str(p)] for an absolute path and for a relative one. *)
Definition to_string (p : path) : string := "/" +++ Str.join "/" p.

Definition rel_to_string (p : list string) : string :=
  match p with
  | [] => "."
  | _ => Str.join "/" p
  end.

End Path.

Module FS.

Import Path.

Inductive node : Type :=
| File (content : string)
| Dir.

(** What lives at each fully resolved path. *)
Definition fs : Type := path -> option node.

(** The walk the operating system makes along the components of a path:
    every component is looked up in a directory, [..] included. *)
Fixpoint walk (f : fs) (cur : path) (comps : list string) : option path :=
  match comps with
  | [] => Some cur
  | c :: cs =>
      match f cur with
      | Some Dir =>
          if String.eqb c ".." then walk f (removelast cur) cs
          else walk f (cur ++ [c]) cs
      | _ => None
      end
  end.

Definition stat (f : fs) (p : path) : option node :=
  match walk f [] p with
  | Some q => f q
  | None => None
  end.

(** [p.exists()], for a name the operating system takes (see [nameable]
    below): the library lets the [OSError] of a name that is too long
    through. *)
Definition exists_ (f : fs) (p : path) : bool :=
  match stat f p with
  | Some _ => true
  | None => false
  end.





(** [p.read_text(encoding='utf-8')] on a path that exists; the content of
    a file is text already. *)
Definition read_text (f : fs) (p : path) : res string :=
  match stat f p with
  | Some (File c) => Ok c
  | Some Dir => Raise IsADirectoryError
  | None => Raise (ValueError "no such file")
  end.

(** A file system given by its directories and its files. *)
Definition path_eqb (p q : path) : bool :=
  if list_eq_dec string_dec p q then true else false.

Definition of_lists (dirs : list path) (files : list (path * string)) : fs :=
  fun p =>
    if existsb (path_eqb p) dirs then Some Dir
    else match find (fun e => path_eqb p (fst e)) files with
         | Some (_, c) => Some (File c)
         | None => None
         end.

End FS.

(** ** Dates, as the [datetime] module computes them *)

Module Date.

Local Open Scope Z_scope.

Record date : Type := MkDate { year : Z; month : Z; day : Z }.

Definition is_leap (y : Z) : bool :=
  (y mod 4 =? 0) && (negb (y mod 100 =? 0) || (y mod 400 =? 0)).

Definition days_before_year (y : Z) : Z :=
  let y' := y - 1 in y' * 365 + y' / 4 - y' / 100 + y' / 400.

Definition DAYS_IN_MONTH : list Z :=
  [0; 31; 28; 31; 30; 31; 30; 31; 31; 30; 31; 30; 31].

Definition DAYS_BEFORE_MONTH : list Z :=
  [0; 0; 31; 59; 90; 120; 151; 181; 212; 243; 273; 304; 334].

Definition days_in_month (y m : Z) : Z :=
  if (m =? 2) && is_leap y then 29 else nth (Z.to_nat m) DAYS_IN_MONTH 0.

Definition days_before_month (y m : Z) : Z :=
  nth (Z.to_nat m) DAYS_BEFORE_MONTH 0
  + (if (2 <? m) && is_leap y then 1 else 0).

(** [date.toordinal()]: 1 for 0001-01-01. *)
Definition toordinal (d : date) : Z :=
  days_before_year (year d) + days_before_month (year d) (month d) + day d.

(** The check the constructor of [date] makes. *)
Definition valid (d : date) : bool :=
  (1 <=? year d) && (year d <=? 9999)
  && (1 <=? month d) && (month d <=? 12)
  && (1 <=? day d) && (day d <=? days_in_month (year d) (month d)).

(** A [datetime]: a date and the microseconds since its midnight. *)
Record datetime : Type := MkDateTime { dt_date : date; dt_micros : Z }.

Definition valid_datetime (t : datetime) : bool :=
  valid (dt_date t) && (0 <=? dt_micros t) && (dt_micros t <? 86400000000).

Definition midnight (d : date) : datetime := MkDateTime d 0.

(** [(a - b).days]: a [timedelta] keeps its seconds and microseconds
    non-negative, so its days are the floor of the difference. *)
Definition delta_days (a b : datetime) : Z :=
  ((toordinal (dt_date a) - toordinal (dt_date b)) * 86400000000
   + (dt_micros a - dt_micros b)) / 86400000000.

(** The pattern [_strptime] builds for the format ['%Y-%m-%d']. *)
Definition nonzero : regex := one_of "123456789".

Definition re_Y : regex := Rep 4 digit.
Definition re_m : regex :=
  Alt (Cat (Chr "1") (one_of "012"))
      (Alt (Cat (Chr "0") nonzero) nonzero).
Definition re_d : regex :=
  Alt (Cat (Chr "3") (one_of "01"))
      (Alt (Cat (one_of "12") digit)
           (Alt (Cat (Chr "0") nonzero)
                (Alt nonzero (Cat (Chr " ") nonzero)))).

Definition format_regex : regex :=
  Cat (Grp 1 re_Y) (Cat (Chr "-") (Cat (Grp 2 re_m) (Cat (Chr "-") (Grp 3 re_d)))).

(** [datetime.strptime(s, '%Y-%m-%d')] *)
Definition strptime (s : string) : res datetime :=
  match match_at true format_regex None (Str.chars s) 0 with
  | None => Raise (ValueError "time data does not match format")
  | Some m =>
      if negb (List.length (m_text m) =? String.length s)%nat
      then Raise (ValueError "unconverted data remains")
      else
        let d := MkDate (Str.to_Z (group 1 m)) (Str.to_Z (group 2 m))
                        (Str.to_Z (group 3 m)) in
        if valid d then Ok (midnight d)
        else Raise (ValueError "date value out of range")
  end.

(** [t.strftime('%Y-%m-%d')], with [%Y] rendered on four digits: what the
    C library prints for the years from 1000 on (glibc writes a smaller
    year without its leading zeros). *)
Definition strftime (t : datetime) : string :=
  let d := dt_date t in
  Str.pad 4 (Str.of_Z (year d)) +++ "-" +++ Str.pad 2 (Str.of_Z (month d))
  +++ "-" +++ Str.pad 2 (Str.of_Z (day d)).

End Date.

(** ** The validator *)

Import Path.

(** The accumulators of a [DocValidator] instance. *)
Record validator : Type := Validator {
  errors : list string;
  warnings : list string;
  fixes_applied : list string
}.

(** [DocValidator.__init__] *)
Definition init : validator := Validator [] [] [].

(** [self.errors.append(e)] and [self.warnings.append(w)] *)
Definition errors_append (e : string) (v : validator) : validator :=
  Validator (errors v ++ [e]) (warnings v) (fixes_applied v).

Definition warnings_append (w : string) (v : validator) : validator :=
  Validator (errors v) (warnings v ++ [w]) (fixes_applied v).

(** What [validate_file] returns: success, errors, warnings. *)
Record result : Type := Result {
  success : bool;
  r_errors : list string;
  r_warnings : list string
}.

(** [r1|r2|...|rn] over literal words. *)
Fixpoint alts (ws : list string) : regex :=
  match ws with
  | [] => Cls (fun _ => false)
  | [w] => Lit w
  | w :: ws' => Alt (Lit w) (alts ws')
  end.

(** [r'\[([^\]]+)\]\(([^)]+)\)'] *)
Definition link_pattern : regex :=
  Cat (Chr "[") (Cat (Grp 1 (Plus (none_of "]")))
  (Cat (Chr "]") (Cat (Chr "(") (Cat (Grp 2 (Plus (none_of ")")))
  (Chr ")"))))).

(** The three patterns of [_check_code_file_references]. *)
Definition source_exts : list string := ["ts"; "tsx"; "js"; "jsx"].

Definition numbered_pattern : regex :=
  Cat (Chr "`")
  (Cat (Grp 1 (Cat (Plus (none_of "`"))
                   (Cat (Chr ".") (Grp 2 (alts (source_exts ++ ["py"; "sql"; "md"]))))))
  (Cat (Chr ":") (Cat (Grp 3 (Plus digit)) (Chr "`")))).

Definition rooted_pattern (root : string) : regex :=
  Cat (Chr "`")
  (Cat (Grp 1 (Cat (Lit root) (Cat (Plus (none_of "`"))
                   (Cat (Chr ".") (Grp 2 (alts source_exts))))))
  (Chr "`")).

Definition file_patterns : list regex :=
  [numbered_pattern; rooted_pattern "src/"; rooted_pattern "app/"].

Definition placeholders : list string := ["example"; "your-"; "xxx"; "..."].

(** The three patterns of [_check_last_updated]. *)
Definition iso_date : regex :=
  Cat (Rep 4 digit) (Cat (Chr "-") (Cat (Rep 2 digit) (Cat (Chr "-") (Rep 2 digit)))).

Definition stamp_pattern (label : string) : regex :=
  Cat (Lit label) (Cat (Star space) (Grp 1 iso_date)).

Definition bold_stamp : regex := stamp_pattern "**Last Updated**:".
Definition plain_stamp : regex := stamp_pattern "Last Updated:".
Definition short_stamp : regex := stamp_pattern "Updated:".

Definition stamp_patterns : list regex := [bold_stamp; plain_stamp; short_stamp].

(** [rf'^#+\s+{section}'], for a section name made of letters and spaces. *)
Definition heading_pattern (section : string) : regex :=
  Cat Bol (Cat (Plus (Chr "#")) (Cat (Plus space) (Lit section))).

(** [r'(TODO|FIXME|XXX|HACK):\s*(.+)'] *)
Definition todo_pattern : regex :=
  Cat (Grp 1 (alts ["TODO"; "FIXME"; "XXX"; "HACK"]))
  (Cat (Chr ":") (Cat (Star space) (Grp 2 (Plus dot)))).

Section DocValidator.

Variable project_root : path.
Variable disk : FS.fs.
Variable now : Date.datetime.

(** The body of the loop of [_check_broken_links]. *)
Definition check_link (doc_path : path) (v : validator) (m : mobj)
  : res validator :=
  let link_text := group 1 m in
  let link_url := group 2 m in
  if existsb (fun p => Str.startswith p link_url)
             ["http://"; "https://"; "mailto:"; "#"]
  then Ok v
  else
    let target_path :=
      if Str.startswith "/" link_url
      then joinpath project_root (Str.lstrip "/" link_url)
      else resolve (joinpath (parent doc_path) link_url) in
    if negb (FS.exists_ disk target_path) then
      rel <- relative_to target_path project_root ;;
      Ok (errors_append
            ("Broken link: [" +++ link_text +++ "](" +++ link_url +++ ") -> "
             +++ rel_to_string rel +++ " not found") v)
    else Ok v.

Definition _check_broken_links (doc_path : path) (content : string)
  (v : validator) : res validator :=
  let links := findall false link_pattern content in
  for_each (check_link doc_path) links v.

(** The body of the inner loop of [_check_code_file_references]. *)
Definition check_file_ref (v : validator) (m : mobj) : validator :=
  let file_ref := Str.replace_char "\" "/" (group 1 m) in
  if existsb (fun placeholder => Str.contains placeholder (Str.lower file_ref))
             placeholders
  then v
  else
    let target_path := joinpath project_root file_ref in
    if negb (FS.exists_ disk target_path)
    then warnings_append ("Referenced file may not exist: " +++ file_ref) v
    else v.

Definition _check_code_file_references (content : string) (v : validator)
  : validator :=
  fold_left
    (fun v pattern => fold_left check_file_ref (findall false pattern content) v)
    file_patterns v.

(** The first loop of [_check_last_updated]: the date text of the first
    pattern, in the order of the list, that is found in the content. *)
Fixpoint find_stamp (patterns : list regex) (content : string)
  : option string :=
  match patterns with
  | [] => None
  | pattern :: ps =>
      match search false pattern content with
      | Some m => Some (group 1 m)
      | None => find_stamp ps content
      end
  end.

Definition stale_message (days_old : Z) (last_updated : Date.datetime)
  : string :=
  "Document hasn't been updated in " +++ Str.of_Z days_old
  +++ " days (since " +++ Date.strftime last_updated +++ ")".

Definition no_stamp_message : string := "No 'Last Updated' timestamp found".

Definition is_template (doc_path : path) : bool :=
  Str.contains "template" (Str.lower (name doc_path)).

Definition _check_last_updated (doc_path : path) (content : string)
  (v : validator) : res validator :=
  match find_stamp stamp_patterns content with
  | Some text =>
      last_updated <- Date.strptime text ;;
      let days_old := Date.delta_days now last_updated in
      if (180 <? days_old)%Z
      then Ok (warnings_append (stale_message days_old last_updated) v)
      else Ok v
  | None =>
      if negb (is_template doc_path)
      then Ok (warnings_append no_stamp_message v)
      else Ok v
  end.

(** The sections [_check_required_sections] asks of a file name. *)
Definition required_sections (nm : string) : list string :=
  if Str.contains "runbook" (Str.lower nm) || Str.contains "RUNBOOK" nm
  then ["Overview"; "Common Issues"; "Monitoring"]
  else if Str.contains "adr" (Str.lower nm) || Str.startswith "ADR" nm
  then ["Context"; "Decision"; "Consequences"]
  else if Str.contains "api" (Str.lower nm) || Str.contains "API" nm
  then ["Overview"; "Endpoints"; "Error Handling"]
  else [].

Definition has_heading (section content : string) : bool :=
  match search true (heading_pattern section) content with
  | Some _ => true
  | None => false
  end.

Definition _check_required_sections (doc_path : path) (content : string)
  (v : validator) : validator :=
  if is_template doc_path then v
  else
    fold_left
      (fun v section =>
         if negb (has_heading section content)
         then errors_append ("Missing required section: " +++ section) v
         else v)
      (required_sections (name doc_path)) v.

Definition _check_todo_markers (content : string) (v : validator) : validator :=
  fold_left
    (fun v m =>
       warnings_append
         ("Found " +++ group 1 m +++ ": " +++ Str.take 50 (group 2 m) +++ "...") v)
    (findall false todo_pattern content) v.

(** [validate_file].  Its first statement prints the path relative to the
    project root, which raises for a path outside it; then the
    accumulators are reset, whatever they held. *)
Definition validate_file (v : validator) (doc_path : path)
  : res (validator * result) :=
  _ <- relative_to doc_path project_root ;;
  let v := Validator [] [] [] in
  if negb (FS.exists_ disk doc_path) then
    let v := errors_append ("File does not exist: " +++ to_string doc_path) v in
    Ok (v, Result false (errors v) (warnings v))
  else
    content <- FS.read_text disk doc_path ;;
    v <- _check_broken_links doc_path content v ;;
    let v := _check_code_file_references content v in
    v <- _check_last_updated doc_path content v ;;
    let v := _check_required_sections doc_path content v in
    let v := _check_todo_markers content v in
    Ok (v, Result (List.length (errors v) =? 0) (errors v) (warnings v)).

(** The tallies of [main]. *)
Record tally : Type := Tally {
  total_errors : nat;
  total_warnings : nat;
  failed_files : list path
}.

(** The body of the loop of [main] over the documents. *)
Definition main_step (s : validator * tally) (doc_file : path)
  : res (validator * tally) :=
  let (v, t) := s in
  vr <- validate_file v doc_file ;;
  let (v', r) := vr in
  Ok (v',
      Tally (total_errors t + List.length (r_errors r))
            (total_warnings t + List.length (r_warnings r))
            (if negb (success r) then failed_files t ++ [doc_file]
             else failed_files t)).

(** [main] from the list of documents on: one validator for the run, the
    loop, and the status handed to [sys.exit]. *)
Definition main (doc_files : list path) : res nat :=
  s <- for_each main_step doc_files (init, Tally 0 0 []) ;;
  Ok (match failed_files (snd s) with
      | [] => 0
      | _ :: _ => 1
      end).

(** The exit status of the process: an uncaught exception ends the
    interpreter with status 1. *)
Definition exit_status (doc_files : list path) : nat :=
  match main doc_files with
  | Ok n => n
  | Raise _ => 1
  end.

End DocValidator.

(** A document is clean when its validation returns and reports no error. *)
Definition clean (project_root : path) (disk : FS.fs) (now : Date.datetime)
  (doc_path : path) : Prop :=
  exists v r,
    validate_file project_root disk now init doc_path = Ok (v, r)
    /\ r_errors r = [].

(** ** Shapes and scenarios used in the statements below *)

(** The shape [dddd-dd-dd] of a date text. *)
Definition iso_shape (s : string) : bool :=
  match Str.chars s with
  | [y1; y2; y3; y4; h1; m1; m2; h2; d1; d2] =>
      forallb Char.is_digit [y1; y2; y3; y4; m1; m2; d1; d2]
      && Ascii.eqb h1 "-" && Ascii.eqb h2 "-"
  | _ => false
  end.

Definition not_bt (c : ascii) : bool := negb (Ascii.eqb c Char.backtick).

Definition no_backtick (s : string) : bool := forallb not_bt (Str.chars s).

(** The characters a code reference can end with, before its closing
    backtick: a digit of the line number, or the last letter of one of
    [ts], [tsx], [js], [jsx]. *)
Definition closing (c : ascii) : bool :=
  Char.is_digit c || Ascii.eqb c "s" || Ascii.eqb c "x".

(** A word of a reference pattern is a pair of backticks around a text
    that has no backtick and ends with a closing character. *)
Definition ref_word (w : list ascii) : Prop :=
  exists mid, w = Char.backtick :: mid ++ [Char.backtick]
    /\ forallb not_bt mid = true /\ closing (last mid Char.backtick) = true.

(** The ten digits, and the check that a text of digits survives being
    read as a number and written back on [w] digits. *)
Definition digit_chars : list ascii := Str.chars "0123456789".

Definition pad_ok (w : nat) (l : list ascii) : bool :=
  String.eqb (Str.pad w (Str.of_Z (Str.to_Z (Str.of_chars l))))
             (Str.of_chars l).

Module Scenario.

Definition nl : string := String Char.newline "".

Definition root : path := ["proj"].

Definition dirs : list path :=
  [[]; ["proj"]; ["proj"; "docs"]; ["proj"; "docs"; "api"]].

(** [docs/api/users.md] with headings Overview and Endpoints, a link to a
    file that is not there, and no stamp. *)
Definition users_md : path := ["proj"; "docs"; "api"; "users.md"].

Definition users_content : string :=
  "# Users" +++ nl +++ "## Overview" +++ nl +++ "See [spec](./missing.md)."
  +++ nl +++ "## Endpoints" +++ nl +++ "GET /users" +++ nl.

(** A clean document, one with a stamp that is no calendar date, and one
    with a link that leaves the project. *)
Definition clean_md : path := ["proj"; "docs"; "clean.md"].
Definition clean_content : string :=
  "# Notes" +++ nl +++ "Last Updated: 2024-06-01" +++ nl.

Definition baddate_md : path := ["proj"; "docs"; "baddate.md"].
Definition baddate_content : string :=
  "# Notes" +++ nl +++ "Last Updated: 2024-13-99" +++ nl.

Definition escape_md : path := ["proj"; "docs"; "escape.md"].
Definition escape_content : string :=
  "# Notes" +++ nl +++ "Last Updated: 2024-06-01" +++ nl
  +++ "See [up](../../outside.md)." +++ nl.

Definition disk : FS.fs :=
  FS.of_lists dirs
    [(users_md, users_content); (clean_md, clean_content);
     (baddate_md, baddate_content); (escape_md, escape_content)].

(** The same files, and a copy of the clean document outside the
    project. *)
Definition outside_md : path := ["tmp"; "clean.md"].

Definition disk_with_tmp : FS.fs :=
  FS.of_lists (dirs ++ [["tmp"]])
    [(users_md, users_content); (clean_md, clean_content);
     (baddate_md, baddate_content); (escape_md, escape_content);
     (outside_md, clean_content)].

(** 2024-06-30, a little after midnight: 181 days after 2024-01-01. *)
Definition today : Date.datetime :=
  Date.MkDateTime (Date.MkDate 2024 6 30) 1000.


(** The short form first, the bold form after it. *)
Definition two_stamps : string :=
  "Updated: 2020-01-01" +++ nl +++ "**Last Updated**: 2024-05-05" +++ nl.

End Scenario.

(** ** Discovery of the documents and the command line *)

(** The order of [sorted] on paths: component by component, each
    component by code points, a proper prefix first. *)
Fixpoint path_leb (p q : path) : bool :=
  match p, q with
  | [], _ => true
  | _ :: _, [] => false
  | a :: p', b :: q' =>
      if String.eqb a b then path_leb p' q' else String.leb a b
  end.

Fixpoint insert_sorted (p : path) (l : list path) : list path :=
  match l with
  | [] => [p]
  | q :: l' => if path_leb p q then p :: l else q :: insert_sorted p l'
  end.

(** [sorted(l)] *)
Definition sorted (l : list path) : list path :=
  fold_right insert_sorted [] l.

(** The filter of [find_all_docs] on one path. *)
Definition kept (f : path) : bool :=
  negb (Str.contains "node_modules" (to_string f))
  && negb (Str.contains ".next" (to_string f)).

Section Discovery.

Variable project_root : path.
Variable disk : FS.fs.
Variable now : Date.datetime.

(** [d.glob(pattern)], the entries the file system yields: an input. *)
Variable glob : path -> string -> list path.

Definition find_all_docs : list path :=
  let docs_dir := joinpath project_root "docs" in
  let skills_dir := joinpath project_root "skills" in
  let doc_files := [] in
  let doc_files :=
    if FS.exists_ disk docs_dir then doc_files ++ glob docs_dir "**/*.md"
    else doc_files in
  let doc_files :=
    if FS.exists_ disk skills_dir then doc_files ++ glob skills_dir "**/*.md"
    else doc_files in
  let doc_files := doc_files ++ glob project_root "*.md" in
  let doc_files := filter kept doc_files in
  sorted doc_files.

(** The loop of [main] over [sys.argv[1:]]: the path to validate, if one
    was given. *)
Definition specific_file_of (args : list string) : option path :=
  fold_left
    (fun specific_file arg =>
       if negb (String.eqb arg "--fix") && negb (Str.startswith "-" arg)
       then
         let f := parts arg in
         Some (if negb (Str.startswith "/" arg) then project_root ++ f else f)
       else specific_file)
    args None.

(** ['--fix' in sys.argv] *)
Definition fix_mode_of (argv : list string) : bool :=
  existsb (String.eqb "--fix") argv.

Definition doc_files_of (argv : list string) : list path :=
  match specific_file_of (tl argv) with
  | Some specific_file => [specific_file]
  | None => find_all_docs
  end.

(** [main] from [sys.argv] on, and the exit status of the process. *)
Definition main_argv (argv : list string) : res nat :=
  main project_root disk now (doc_files_of argv).

Definition exit_status_argv (argv : list string) : nat :=
  exit_status project_root disk now (doc_files_of argv).

End Discovery.

(** ** Findings put side by side *)

(** A validator with more errors and more warnings at the end of what it
    held. *)
Definition extend (es ws : list string) (v : validator) : validator :=
  Validator (errors v ++ es) (warnings v ++ ws) (fixes_applied v).

(** The date that the digits of a text of the shape dddd-dd-dd read. *)
Definition date_of_text (text : string) : Date.date :=
  match Str.chars text with
  | [y1; y2; y3; y4; _; m1; m2; _; d1; d2] =>
      Date.MkDate (Str.to_Z (Str.of_chars [y1; y2; y3; y4]))
                  (Str.to_Z (Str.of_chars [m1; m2]))
                  (Str.to_Z (Str.of_chars [d1; d2]))
  | _ => Date.MkDate 0 0 0
  end.

(** [a not in s] for one character. *)
Definition lacks (a : ascii) (s : string) : bool :=
  forallb (fun c => negb (Ascii.eqb c a)) (Str.chars s).



(** A position right after [pre] is at the start of a line. *)
Definition line_start (pre : list ascii) : bool :=
  match prev_after None pre with
  | None => true
  | Some c => Ascii.eqb c Char.newline
  end.

(** The shape the heading pattern asks of a text: at the start of a line,
    one or more [#], one or more white-space characters, then the section
    name in any letter case. *)
Definition heading_shape (section : string) (text : list ascii) : Prop :=
  exists pre hashes blanks name post,
    text = pre ++ hashes ++ blanks ++ name ++ post
    /\ line_start pre = true
    /\ hashes <> [] /\ forallb (Ascii.eqb "#") hashes = true
    /\ blanks <> [] /\ forallb Char.is_space blanks = true
    /\ map Char.lower name = map Char.lower (Str.chars section).

(** Inversion of the words of a pattern built from concatenations,
    characters, classes and groups. *)
Ltac inv_lang :=
  repeat match goal with
    | H : lang _ (Cat _ _) _ |- _ => inversion H; subst; clear H
    | H : lang _ (Chr _) _ |- _ => inversion H; subst; clear H
    | H : lang _ (Cls _) _ |- _ => inversion H; subst; clear H
    | H : lang _ (Grp _ _) _ |- _ => inversion H; subst; clear H
    | H : lang _ Eps _ |- _ => inversion H; subst; clear H
    end.

(** * Properties *)

(** ** The matcher against the declarative reading of a pattern *)

Section Matcher.

Variable ic : bool.

Lemma star_loop_sound (A : Type) (r : regex)
  (body : mstate -> (mstate -> option A) -> option A) :
  (forall st k x, body st k = Some x ->
     exists st', matches ic r st st' /\ k st' = Some x) ->
  forall n k st x, star_loop body k n st = Some x ->
     exists st', matches ic (Star r) st st' /\ k st' = Some x.
Proof.
  intros Hbody n k; induction n as [|n IH]; intros st x H; simpl in H.
  - exists st; split; [apply M_Star0 | exact H].
  - destruct (body st _) as [a|] eqn:E.
    + injection H as <-.
      apply Hbody in E; destruct E as (st1 & M1 & K1).
      destruct (_ <? _); [|discriminate].
      apply IH in K1; destruct K1 as (st' & M2 & K2).
      exists st'; split; [eapply M_StarS; eassumption | exact K2].
    + exists st; split; [apply M_Star0 | exact H].
Qed.

(** Whatever the matcher returns comes from a match of the pattern. *)
Lemma rmatch_sound (A : Type) (r : regex) :
  forall st (k : mstate -> option A) x, rmatch ic r st k = Some x ->
    exists st', matches ic r st st' /\ k st' = Some x.
Proof.
  induction r as [|c|p|r1 IH1 r2 IH2|r1 IH1 r2 IH2|r1 IH1|i r1 IH1|];
    intros st k x H; simpl in H.
  - exists st; split; [constructor | exact H].
  - destruct (rest st) as [|c' s] eqn:E; [discriminate|].
    destruct (Char.eqb_ic ic c c') eqn:Ec; [|discriminate].
    exists (step c' s st); split; [apply M_Chr; assumption | exact H].
  - destruct (rest st) as [|c' s] eqn:E; [discriminate|].
    destruct (p c') eqn:Ec; [|discriminate].
    exists (step c' s st); split; [apply M_Cls; assumption | exact H].
  - apply IH1 in H; destruct H as (st1 & M1 & H).
    apply IH2 in H; destruct H as (st2 & M2 & H).
    exists st2; split; [eapply M_Cat; eassumption | exact H].
  - destruct (rmatch ic r1 st k) as [a|] eqn:E.
    + injection H as <-. apply IH1 in E; destruct E as (st' & M1 & K1).
      exists st'; split; [apply M_AltL; assumption | exact K1].
    + apply IH2 in H; destruct H as (st' & M2 & K2).
      exists st'; split; [apply M_AltR; assumption | exact K2].
  - eapply star_loop_sound; [exact IH1 | exact H].
  - apply IH1 in H; destruct H as (st1 & M1 & H).
    eexists; split; [apply M_Grp; eassumption | exact H].
  - destruct (at_line_start st) eqn:E; [|discriminate].
    exists st; split; [apply M_Bol; assumption | exact H].
Qed.

(** A match consumes a prefix of the text ahead. *)
Lemma matches_rest (r : regex) (a b : mstate) :
  matches ic r a b -> exists w, rest a = w ++ rest b.
Proof.
  induction 1 as [st|c c' s st E _|p c' s st E _|r1 r2 a b c _ [w1 E1] _ [w2 E2]
                 |r1 r2 a b _ IH|r1 r2 a b _ IH|r st|r a b c _ [w1 E1] _ [w2 E2]
                 |i r a b _ [w E]|st _].
  - exists []; reflexivity.
  - exists [c']; rewrite E; reflexivity.
  - exists [c']; rewrite E; reflexivity.
  - exists (w1 ++ w2); rewrite E1, E2, app_assoc; reflexivity.
  - exact IH.
  - exact IH.
  - exists []; reflexivity.
  - exists (w1 ++ w2); rewrite E1, E2, app_assoc; reflexivity.
  - exists w; exact E.
  - exists []; reflexivity.
Qed.

Lemma consumed_app (a b : mstate) (w : list ascii) :
  rest a = w ++ rest b -> consumed a b = w.
Proof.
  intros E; unfold consumed; rewrite E, length_app.
  replace (List.length w + List.length (rest b) - List.length (rest b))
    with (List.length w + 0) by lia.
  rewrite firstn_app_2; simpl; apply app_nil_r.
Qed.

(** A match consumes a word of the pattern. *)
Lemma matches_lang (r : regex) (a b : mstate) :
  matches ic r a b -> exists w, rest a = w ++ rest b /\ lang ic r w.
Proof.
  induction 1 as [st|c c' s st E Hc|p c' s st E Hc
                 |r1 r2 a b c _ (w1 & E1 & L1) _ (w2 & E2 & L2)
                 |r1 r2 a b _ (w & E & L)|r1 r2 a b _ (w & E & L)|r st
                 |r a b c _ (w1 & E1 & L1) _ (w2 & E2 & L2)
                 |i r a b _ (w & E & L)|st _].
  - exists []; split; [reflexivity | constructor].
  - exists [c']; split; [rewrite E; reflexivity | constructor; exact Hc].
  - exists [c']; split; [rewrite E; reflexivity | constructor; exact Hc].
  - exists (w1 ++ w2); split;
      [rewrite E1, E2, app_assoc; reflexivity | constructor; assumption].
  - exists w; split; [exact E | apply L_AltL; exact L].
  - exists w; split; [exact E | apply L_AltR; exact L].
  - exists []; split; [reflexivity | constructor].
  - exists (w1 ++ w2); split;
      [rewrite E1, E2, app_assoc; reflexivity | apply L_StarS; assumption].
  - exists w; split; [exact E | constructor; exact L].
  - exists []; split; [reflexivity | constructor].
Qed.

(** Words of the building blocks. *)
Lemma lang_star_cls (p : ascii -> bool) (w : list ascii) :
  lang ic (Star (Cls p)) w -> forallb p w = true.
Proof.
  intros H; remember (Star (Cls p)) as r eqn:Er.
  induction H as [| | | | | | |r w1 w2 H1 _ H2 IH2| |]; try discriminate.
  - reflexivity.
  - injection Er as ->. specialize (IH2 eq_refl).
    inversion H1; subst. simpl. rewrite IH2, andb_true_r. assumption.
Qed.

Lemma lang_plus_cls (p : ascii -> bool) (w : list ascii) :
  lang ic (Plus (Cls p)) w -> w <> [] /\ forallb p w = true.
Proof.
  intros H; inversion H as [| | |r1 r2 w1 w2 H1 H2| | | | | |]; subst.
  inversion H1; subst. apply lang_star_cls in H2.
  split; [discriminate | simpl; rewrite H2, andb_true_r; assumption].
Qed.

Lemma matches_length (r : regex) (a b : mstate) :
  matches ic r a b -> List.length (rest b) <= List.length (rest a).
Proof.
  intros H; apply matches_rest in H; destruct H as [w E].
  rewrite E, length_app; lia.
Qed.

(** A pattern that is not nullable consumes a character. *)
Lemma matches_progress (r : regex) (a b : mstate) :
  matches ic r a b -> nullable r = false ->
  List.length (rest b) < List.length (rest a).
Proof.
  induction 1 as [st|c c' s st E _|p c' s st E _|r1 r2 a b c H1 IH1 H2 IH2
                 |r1 r2 a b _ IH|r1 r2 a b _ IH|r st|r a b c _ _ _ _
                 |i r a b _ IH|st _]; simpl; intros N; try discriminate.
  - rewrite E; simpl; lia.
  - rewrite E; simpl; lia.
  - apply matches_length in H1 as L1; apply matches_length in H2 as L2.
    apply andb_false_iff in N; destruct N as [N|N];
      [specialize (IH1 N) | specialize (IH2 N)]; lia.
  - apply orb_false_iff in N; destruct N as [N _]; exact (IH N).
  - apply orb_false_iff in N; destruct N as [_ N]; exact (IH N).
  - exact (IH N).
Qed.

Lemma star_loop_stop (A : Type)
  (body : mstate -> (mstate -> option A) -> option A)
  (k : mstate -> option A) (n : nat) (st : mstate) (x : A) :
  k st = Some x -> exists y, star_loop body k n st = Some y.
Proof.
  intros H; destruct n as [|n]; simpl.
  - exists x; exact H.
  - destruct (body st _) as [a|]; [exists a; reflexivity | exists x; exact H].
Qed.

(** Where the pattern has a match that the rest of the search accepts,
    the matcher returns a result: the bound on the rounds of a star is
    never the reason for a failure. *)
Lemma rmatch_complete_aux (A : Type) (r : regex) (a b : mstate) :
  matches ic r a b -> star_ok r = true ->
  forall (k : mstate -> option A) x, k b = Some x ->
    (exists y, rmatch ic r a k = Some y)
    /\ (forall r1, r = Star r1 -> forall n, List.length (rest a) <= n ->
          exists y, star_loop (rmatch ic r1) k n a = Some y).
Proof.
  induction 1 as [st|c c' s st E Hc|p c' s st E Hc|r1 r2 a b c _ IH1 _ IH2
                 |r1 r2 a b _ IH|r1 r2 a b _ IH|r st|r a b c H1 IH1 _ IH2
                 |i r a b _ IH|st Hs]; simpl; intros W k x K.
  - split; [exists x; exact K | discriminate].
  - split; [rewrite E, Hc; exists x; exact K | discriminate].
  - split; [rewrite E, Hc; exists x; exact K | discriminate].
  - apply andb_true_iff in W; destruct W as [W1 W2].
    split; [|discriminate].
    destruct (IH2 W2 k x K) as [[y Hy] _].
    destruct (IH1 W1 (fun st1 => rmatch ic r2 st1 k) y Hy) as [Hz _].
    exact Hz.
  - apply andb_true_iff in W; destruct W as [W1 _].
    split; [|discriminate].
    destruct (IH W1 k x K) as [[y Hy] _]. rewrite Hy. exists y; reflexivity.
  - apply andb_true_iff in W; destruct W as [_ W2].
    split; [|discriminate].
    destruct (rmatch ic r1 a k) as [z|]; [exists z; reflexivity|].
    destruct (IH W2 k x K) as [Hy _]; exact Hy.
  - split; [eapply star_loop_stop; exact K|].
    intros r1 E n _; injection E as ->. eapply star_loop_stop; exact K.
  - assert (Hall : forall n, List.length (rest a) <= n ->
              exists y, star_loop (rmatch ic r) k n a = Some y).
    { apply andb_true_iff in W as W'; destruct W' as [N W1].
      apply negb_true_iff in N.
      pose proof (matches_progress H1 N) as P.
      intros n Hn. destruct n as [|n]; [lia|]. simpl.
      destruct (IH2 W k x K) as [_ Hb].
      destruct (Hb r eq_refl n ltac:(lia)) as [y Hy].
      destruct (IH1 W1
                  (fun st1 =>
                     if List.length (rest st1) <? List.length (rest a)
                     then star_loop (rmatch ic r) k n st1 else None) y)
        as [[z Hz] _].
      { apply Nat.ltb_lt in P; rewrite P; exact Hy. }
      rewrite Hz; exists z; reflexivity. }
    split; [apply Hall; lia|].
    intros r1 E; injection E as <-; exact Hall.
  - split; [|discriminate].
    destruct (IH W (fun st1 => k (set_group i (consumed a st1) st1)) x K)
      as [Hy _]; exact Hy.
  - split; [rewrite Hs; exists x; exact K | discriminate].
Qed.

Lemma match_at_complete (r : regex) (p : option ascii) (s : list ascii)
  (pos : nat) (st' : mstate) :
  star_ok r = true -> matches ic r (MState p s []) st' ->
  exists m, match_at ic r p s pos = Some m.
Proof.
  intros W M; unfold match_at.
  eapply (rmatch_complete_aux M W); reflexivity.
Qed.

Lemma match_at_sound (r : regex) (p : option ascii) (s : list ascii)
  (pos : nat) (m : mobj) :
  match_at ic r p s pos = Some m ->
  exists st', matches ic r (MState p s []) st'
    /\ m_caps m = caps st' /\ s = m_text m ++ rest st' /\ m_start m = pos.
Proof.
  unfold match_at; intros H.
  apply rmatch_sound in H; destruct H as (st' & M & E).
  injection E as <-; simpl.
  exists st'; repeat split; try assumption.
  destruct (matches_rest M) as [w Ew]; simpl in Ew.
  rewrite (consumed_app (MState p s []) st' w Ew); exact Ew.
Qed.

(** [re.search] finds a match exactly when the pattern matches somewhere. *)
Lemma search_from_sound (r : regex) :
  forall s p pos m, search_from ic r p s pos = Some m ->
  exists l1 l2 st', s = l1 ++ l2
    /\ matches ic r (MState (prev_after p l1) l2 []) st'
    /\ m_caps m = caps st'.
Proof.
  induction s as [|c s IH]; intros p pos m H; simpl in H.
  - destruct (match_at ic r p [] pos) as [m'|] eqn:E; [|discriminate].
    injection H as ->. apply match_at_sound in E.
    destruct E as (st' & M & C & _).
    exists [], [], st'; repeat split; assumption.
  - destruct (match_at ic r p (c :: s) pos) as [m'|] eqn:E.
    + injection H as ->. apply match_at_sound in E.
      destruct E as (st' & M & C & _).
      exists [], (c :: s), st'; repeat split; assumption.
    + apply IH in H; destruct H as (l1 & l2 & st' & -> & M & C).
      exists (c :: l1), l2, st'; repeat split; assumption.
Qed.

Lemma search_from_complete (r : regex) :
  star_ok r = true ->
  forall l1 l2 p pos st',
    matches ic r (MState (prev_after p l1) l2 []) st' ->
    exists m, search_from ic r p (l1 ++ l2) pos = Some m.
Proof.
  intros W; induction l1 as [|c l1 IH]; intros l2 p pos st' M; simpl in *.
  - destruct (@match_at_complete r p l2 pos st' W M) as [m Hm].
    destruct l2; simpl; rewrite Hm; exists m; reflexivity.
  - destruct (match_at ic r p (c :: l1 ++ l2) pos) as [m|];
      [exists m; reflexivity|].
    eapply IH; exact M.
Qed.

Lemma search_sound (r : regex) (text : string) (m : mobj) :
  search ic r text = Some m ->
  exists st', occurs_with ic r text st' /\ m_caps m = caps st'.
Proof.
  unfold search; intros H.
  apply search_from_sound in H; destruct H as (l1 & l2 & st' & E & M & C).
  exists st'; split; [exists l1, l2; split; assumption | exact C].
Qed.

Lemma search_complete (r : regex) (text : string) :
  star_ok r = true -> occurs ic r text -> exists m, search ic r text = Some m.
Proof.
  intros W (st' & l1 & l2 & E & M); unfold search; rewrite E.
  eapply search_from_complete; eassumption.
Qed.

Lemma search_none (r : regex) (text : string) :
  star_ok r = true -> ~ occurs ic r text -> search ic r text = None.
Proof.
  intros W N. destruct (search ic r text) as [m|] eqn:E; [|reflexivity].
  exfalso; apply N. apply search_sound in E; destruct E as (st' & O & _).
  exists st'; exact O.
Qed.

End Matcher.


Lemma lang_lit (s : string) (w : list ascii) :
  lang false (Lit s) w -> w = Str.chars s.
Proof.
  revert w; induction s as [|c s IH]; intros w H; simpl in H.
  - inversion H; reflexivity.
  - inversion H as [| | |r1 r2 w1 w2 H1 H2| | | | | |]; subst.
    inversion H1 as [|c0 c' Hc| | | | | | | |]; subst.
    apply Ascii.eqb_eq in Hc; subst. simpl. f_equal. apply IH; exact H2.
Qed.

Lemma lang_alts (ws : list string) (w : list ascii) :
  lang false (alts ws) w -> exists x, In x ws /\ w = Str.chars x.
Proof.
  induction ws as [|x ws IH]; intros H; simpl in H.
  - inversion H; discriminate.
  - destruct ws as [|y ws'].
    + exists x; split; [left; reflexivity | apply lang_lit; exact H].
    + inversion H; subst.
      * exists x; split; [left; reflexivity | apply lang_lit; assumption].
      * destruct IH as (z & Hz & ->); [assumption|].
        exists z; split; [right; exact Hz | reflexivity].
Qed.

(** ** The scenario of the specification, end to end *)

(** C1, as the specification states it, fails on the code: the document
    [docs/api/users.md] has the two headings, the dead link and no stamp,
    and its validation does not produce two errors. *)
Lemma e2e_two_errors_refuted :
  has_heading "Overview" Scenario.users_content = true
  /\ has_heading "Endpoints" Scenario.users_content = true
  /\ has_heading "Error Handling" Scenario.users_content = false
  /\ FS.exists_ Scenario.disk ["proj"; "docs"; "api"; "missing.md"] = false
  /\ find_stamp stamp_patterns Scenario.users_content = None
  /\ ~ (exists v r,
          validate_file Scenario.root Scenario.disk Scenario.today init
            Scenario.users_md = Ok (v, r)
          /\ List.length (r_errors r) = 2).
Proof.
  repeat split; try (vm_compute; reflexivity).
  intros (v & r & H & L). vm_compute in H. injection H as _ <-.
  discriminate L.
Qed.

(** C1, amended: the profile of a document is chosen from its file name
    alone, so a file named [users.md] is asked for no section, wherever it
    lies; the scenario yields one error (the broken link) and one warning
    (no stamp), the document fails and the run exits with status 1. *)
Theorem e2e_scenario (now : Date.datetime) :
  (forall dir content v,
     _check_required_sections (dir ++ ["users.md"]) content v = v)
  /\ validate_file Scenario.root Scenario.disk now init Scenario.users_md
     = Ok (Validator
             ["Broken link: [spec](./missing.md) -> docs/api/missing.md not found"]
             ["No 'Last Updated' timestamp found"] [],
           Result false
             ["Broken link: [spec](./missing.md) -> docs/api/missing.md not found"]
             ["No 'Last Updated' timestamp found"])
  /\ exit_status Scenario.root Scenario.disk now [Scenario.users_md] = 1.
Proof.
  split; [|split].
  - intros dir content v. unfold _check_required_sections, is_template, name.
    rewrite last_last. reflexivity.
  - vm_compute; reflexivity.
  - vm_compute; reflexivity.
Qed.

(** ** Exceptions *)

(** C2 fails on the code.  A stamp whose digits form no calendar date makes
    [strptime] raise inside the stamp check; a relative link that resolves
    outside the project root makes [relative_to] raise while the error
    message is built; and the exception ends the run before the documents
    that follow are attempted, although the clean document on its own
    validates without error. *)
Theorem checkers_can_raise :
  _check_last_updated Scenario.today Scenario.baddate_md
    "Last Updated: 2024-13-99" init
  = Raise (ValueError "time data does not match format")
  /\ _check_broken_links Scenario.root Scenario.disk Scenario.escape_md
       "[up](../../outside.md)" init
     = Raise (ValueError "path is not in the subpath of the project root")
  /\ validate_file Scenario.root Scenario.disk Scenario.today init
       Scenario.baddate_md
     = Raise (ValueError "time data does not match format")
  /\ validate_file Scenario.root Scenario.disk Scenario.today init
       Scenario.escape_md
     = Raise (ValueError "path is not in the subpath of the project root")
  /\ main Scenario.root Scenario.disk Scenario.today
       [Scenario.baddate_md; Scenario.clean_md]
     = Raise (ValueError "time data does not match format")
  /\ main Scenario.root Scenario.disk Scenario.today [Scenario.clean_md]
     = Ok 0.
Proof.
  repeat split; vm_compute; reflexivity.
Qed.

(** ** The stamp check *)

Lemma is_digit_in (c : ascii) : Char.is_digit c = true -> In c digit_chars.
Proof.
  destruct c as [[] [] [] [] [] [] [] []]; intros H;
    try (vm_compute in H; discriminate H); simpl; tauto.
Qed.

Lemma pad4_all :
  forallb (fun a => forallb (fun b => forallb (fun c => forallb (fun d =>
    pad_ok 4 [a; b; c; d]) digit_chars) digit_chars) digit_chars) digit_chars
  = true.
Proof. vm_compute. reflexivity. Qed.

Lemma pad2_all :
  forallb (fun a => forallb (fun b => pad_ok 2 [a; b]) digit_chars) digit_chars
  = true.
Proof. vm_compute. reflexivity. Qed.

Lemma pad4_roundtrip (a b c d : ascii) :
  Char.is_digit a = true -> Char.is_digit b = true ->
  Char.is_digit c = true -> Char.is_digit d = true ->
  Str.pad 4 (Str.of_Z (Str.to_Z (Str.of_chars [a; b; c; d])))
  = Str.of_chars [a; b; c; d].
Proof.
  intros Ha Hb Hc Hd.
  apply is_digit_in in Ha, Hb, Hc, Hd.
  pose proof pad4_all as H.
  rewrite forallb_forall in H; specialize (H a Ha).
  rewrite forallb_forall in H; specialize (H b Hb).
  rewrite forallb_forall in H; specialize (H c Hc).
  rewrite forallb_forall in H; specialize (H d Hd).
  apply String.eqb_eq in H. exact H.
Qed.

Lemma pad2_roundtrip (a b : ascii) :
  Char.is_digit a = true -> Char.is_digit b = true ->
  Str.pad 2 (Str.of_Z (Str.to_Z (Str.of_chars [a; b])))
  = Str.of_chars [a; b].
Proof.
  intros Ha Hb.
  apply is_digit_in in Ha, Hb.
  pose proof pad2_all as H.
  rewrite forallb_forall in H; specialize (H a Ha).
  rewrite forallb_forall in H; specialize (H b Hb).
  apply String.eqb_eq in H. exact H.
Qed.

Lemma matches_group_free (ic : bool) (r : regex) (a b : mstate) :
  matches ic r a b -> group_free r = true -> caps b = caps a.
Proof.
  induction 1; simpl; intros G; try reflexivity; try discriminate.
  - apply andb_true_iff in G; destruct G as [G1 G2].
    rewrite IHmatches2, IHmatches1; auto.
  - apply andb_true_iff in G; destruct G as [G1 G2]; auto.
  - apply andb_true_iff in G; destruct G as [G1 G2]; auto.
  - rewrite IHmatches2, IHmatches1; auto.
Qed.

Lemma lang_length_Y w : lang true Date.re_Y w ->
  exists a b c d, w = [a;b;c;d] /\ forallb Char.is_digit w = true.
Proof.
  unfold Date.re_Y, digit; cbn [Rep]; intros H.
  repeat match goal with
    | H : lang _ (Cat _ _) _ |- _ => inversion H; subst; clear H
    | H : lang _ (Cls _) _ |- _ => inversion H; subst; clear H
    | H : lang _ Eps _ |- _ => inversion H; subst; clear H
    end.
  do 4 eexists; split; [reflexivity|]. simpl.
  repeat match goal with H : Char.is_digit _ = true |- _ => rewrite H; clear H end.
  reflexivity.
Qed.

Lemma lang_m_d w : lang true Date.re_m w \/ lang true Date.re_d w ->
  (exists a, w = [a]) \/ (exists a b, w = [a; b]).
Proof.
  unfold Date.re_m, Date.re_d, Date.nonzero, one_of, digit.
  intros [H|H];
  repeat match goal with
    | H : lang _ (Alt _ _) _ |- _ => inversion H; subst; clear H
    | H : lang _ (Cat _ _) _ |- _ => inversion H; subst; clear H
    | H : lang _ (Cls _) _ |- _ => inversion H; subst; clear H
    | H : lang _ (Chr _) _ |- _ => inversion H; subst; clear H
    end; simpl; eauto.
Qed.

Lemma matches_grp (ic : bool) (i : nat) (r : regex) (a b : mstate) :
  matches ic (Grp i r) a b -> group_free r = true ->
  exists w, rest a = w ++ rest b /\ lang ic r w /\ caps b = (i, w) :: caps a.
Proof.
  intros H G. inversion H as [| | | | | | | |? ? ? b0 H0|]; subst; clear H.
  destruct (matches_lang H0) as (w & E & L).
  exists w; simpl. rewrite (consumed_app a b0 w E).
  rewrite (matches_group_free H0 G). repeat split; assumption.
Qed.

Lemma matches_chr (ic : bool) (c : ascii) (a b : mstate) :
  matches ic (Chr c) a b ->
  exists c', rest a = c' :: rest b /\ caps b = caps a.
Proof.
  intros H. inversion H; subst. exists c'; split; [assumption | reflexivity].
Qed.

Lemma length_chars (s : string) : List.length (Str.chars s) = String.length s.
Proof. induction s as [|c s IH]; simpl; [reflexivity | f_equal; exact IH]. Qed.

Lemma strptime_iso (text : string) (lu : Date.datetime) :
  iso_shape text = true -> Date.strptime text = Ok lu ->
  Date.strftime lu = text.
Proof.
  intros Hshape. unfold Date.strptime.
  destruct (match_at true Date.format_regex None (Str.chars text) 0)
    as [m|] eqn:Em; [|discriminate].
  destruct (negb _) eqn:El; [discriminate|].
  destruct (Date.valid _); [|discriminate].
  intros H; injection H as <-.
  apply negb_false_iff, Nat.eqb_eq in El.
  apply match_at_sound in Em; destruct Em as (st' & M & C & T & _).
  assert (R : rest st' = []).
  { apply (f_equal (@List.length ascii)) in T.
    rewrite length_app, length_chars in T.
    destruct (rest st'); [reflexivity | simpl in T; lia]. }
  unfold Date.format_regex in M.
  inversion M as [| | |? ? ? s1 ? M1 M'| | | | | |]; subst; clear M.
  inversion M' as [| | |? ? ? s2 ? M2 M''| | | | | |]; subst; clear M'.
  inversion M'' as [| | |? ? ? s3 ? M3 M'| | | | | |]; subst; clear M''.
  inversion M' as [| | |? ? ? s4 ? M4 M5| | | | | |]; subst; clear M'.
  destruct (matches_grp M1 eq_refl) as (wy & E1 & LY & C1).
  destruct (matches_chr M2) as (h1 & E2 & C2).
  destruct (matches_grp M3 eq_refl) as (wm & E3 & Lm & C3).
  destruct (matches_chr M4) as (h2 & E4 & C4).
  destruct (matches_grp M5 eq_refl) as (wd & E5 & Ld & C5).
  simpl in E1, C1. rewrite C2, C1 in C3. rewrite C4, C3 in C5.
  rewrite R, app_nil_r in E5. rewrite E5 in E4. rewrite E4 in E3.
  rewrite E3 in E2. rewrite E2 in E1. clear E2 E3 E4 E5.
  unfold group, cap. rewrite C, C5. cbn [lookup Nat.eqb].
  apply lang_length_Y in LY; destruct LY as (y1 & y2 & y3 & y4 & -> & DY).
  unfold iso_shape in Hshape. rewrite E1 in Hshape.
  assert (Hm := lang_m_d (or_introl Lm)).
  assert (Hd := lang_m_d (or_intror Ld)).
  destruct Hm as [[m1 ->]|[m1 [m2 ->]]]; destruct Hd as [[d1 ->]|[d1 [d2 ->]]];
    cbn [app] in Hshape; try discriminate Hshape.
  apply andb_true_iff in Hshape; destruct Hshape as [Hshape Hh2].
  apply andb_true_iff in Hshape; destruct Hshape as [Hdig Hh1].
  apply Ascii.eqb_eq in Hh1, Hh2; subst h1 h2.
  cbn [forallb] in Hdig. rewrite !andb_true_iff in Hdig.
  destruct Hdig as (D1 & D2 & D3 & D4 & D5 & D6 & D7 & D8 & _).
  unfold Date.strftime;
    cbn [Date.dt_date Date.midnight Date.year Date.month Date.day].
  rewrite (pad4_roundtrip _ _ _ _ D1 D2 D3 D4).
  rewrite (pad2_roundtrip _ _ D5 D6), (pad2_roundtrip _ _ D7 D8).
  rewrite <- (string_of_list_ascii_of_string text).
  change (list_ascii_of_string text) with (Str.chars text).
  rewrite E1. reflexivity.
Qed.

Lemma strptime_midnight (text : string) (lu : Date.datetime) :
  Date.strptime text = Ok lu -> Date.dt_micros lu = 0%Z.
Proof.
  unfold Date.strptime.
  destruct (match_at _ _ _ _ _) as [m|]; [|discriminate].
  destruct (negb _); [discriminate|].
  destruct (Date.valid _); [|discriminate].
  intros H; injection H as <-; reflexivity.
Qed.

(** The age in days is the difference of the two calendar days, whatever
    the time of day. *)
Lemma delta_days_midnight (t lu : Date.datetime) :
  Date.valid_datetime t = true -> Date.dt_micros lu = 0%Z ->
  Date.delta_days t lu
  = (Date.toordinal (Date.dt_date t) - Date.toordinal (Date.dt_date lu))%Z.
Proof.
  unfold Date.valid_datetime, Date.delta_days; intros V E.
  apply andb_true_iff in V; destruct V as [V H2].
  apply andb_true_iff in V; destruct V as [_ H1].
  apply Z.leb_le in H1; apply Z.ltb_lt in H2.
  rewrite E, Z.sub_0_r, Z.div_add_l by lia.
  rewrite Z.div_small by lia. lia.
Qed.

(** C9: the stamp check adds at most one warning and no error.  With a
    stamp found it is never the missing-stamp warning, without one it is
    never a staleness warning, and a template without a stamp gets none. *)
Theorem stamp_check_one_finding (now : Date.datetime) (doc_path : path)
  (content : string) (v v' : validator) :
  _check_last_updated now doc_path content v = Ok v' ->
  errors v' = errors v
  /\ exists ws, warnings v' = warnings v ++ ws
       /\ List.length ws <= 1
       /\ (find_stamp stamp_patterns content <> None ->
           ~ In no_stamp_message ws)
       /\ (find_stamp stamp_patterns content = None ->
           forall days lu, ~ In (stale_message days lu) ws)
       /\ (find_stamp stamp_patterns content = None ->
           is_template doc_path = true -> ws = []).
Proof.
  unfold _check_last_updated.
  destruct (find_stamp stamp_patterns content) as [text|].
  - destruct (Date.strptime text) as [lu|e]; simpl; [|discriminate].
    destruct (180 <? Date.delta_days now lu)%Z; intros H; injection H as <-.
    + split; [reflexivity|].
      exists [stale_message (Date.delta_days now lu) lu]; simpl.
      split; [reflexivity|]. split; [lia|].
      split; [|split; discriminate].
      intros _ [H|[]]; discriminate H.
    + split; [reflexivity|].
      exists []; simpl; rewrite app_nil_r.
      split; [reflexivity|]. split; [lia|].
      split; [|split; discriminate].
      intros _ [].
  - destruct (is_template doc_path); simpl; intros H; injection H as <-.
    + split; [reflexivity|].
      exists []; simpl; rewrite app_nil_r.
      split; [reflexivity|]. split; [lia|].
      split; [congruence|]. split; [intros _ days lu []|reflexivity].
    + split; [reflexivity|].
      exists [no_stamp_message]; simpl.
      split; [reflexivity|]. split; [lia|].
      split; [congruence|]. split; [|discriminate].
      intros _ days lu [H|[]]; discriminate H.
Qed.

Lemma stamp_check_one_finding_witness :
  errors (Validator [] ["Document hasn't been updated in 181 days (since 2024-01-01)"] [])
  = errors init
  /\ exists ws,
       warnings (Validator [] ["Document hasn't been updated in 181 days (since 2024-01-01)"] [])
       = warnings init ++ ws
       /\ List.length ws <= 1
       /\ (find_stamp stamp_patterns "Last Updated: 2024-01-01" <> None ->
           ~ In no_stamp_message ws)
       /\ (find_stamp stamp_patterns "Last Updated: 2024-01-01" = None ->
           forall days lu, ~ In (stale_message days lu) ws)
       /\ (find_stamp stamp_patterns "Last Updated: 2024-01-01" = None ->
           is_template ["proj"; "a.md"] = true -> ws = []).
Proof.
  apply (@stamp_check_one_finding Scenario.today ["proj"; "a.md"]
           "Last Updated: 2024-01-01" init).
  vm_compute; reflexivity.
Defined.

(** ** One document, and the run over all of them *)

Section Run.

Variable project_root : path.
Variable disk : FS.fs.
Variable now : Date.datetime.

(** [validate_file] resets the accumulators before it reads them. *)
Lemma validate_file_fresh (v v' : validator) (doc_path : path) :
  validate_file project_root disk now v doc_path = validate_file project_root disk now v' doc_path.
Proof. reflexivity. Qed.

(** What comes back is the final state of the accumulators, and success
    is the absence of errors. *)
Lemma validate_file_result (v v' : validator) (doc_path : path) (r : result) :
  validate_file project_root disk now v doc_path = Ok (v', r) ->
  r_errors r = errors v' /\ r_warnings r = warnings v'
  /\ (success r = true <-> r_errors r = []).
Proof.
  unfold validate_file.
  destruct (relative_to doc_path project_root) as [rel|e]; simpl;
    [|discriminate].
  destruct (negb (FS.exists_ disk doc_path)).
  - intros H; injection H as <- <-; simpl.
    repeat split; discriminate.
  - destruct (FS.read_text disk doc_path) as [content|e]; simpl;
      [|discriminate].
    destruct (_check_broken_links _ _ _ _ _) as [v1|e]; simpl;
      [|discriminate].
    destruct (_check_last_updated _ _ _ _) as [v2|e]; simpl; [|discriminate].
    intros H; injection H as <- <-; simpl.
    repeat split.
    + intros H; apply Nat.eqb_eq in H.
      destruct (errors _); [reflexivity | discriminate].
    + intros ->; reflexivity.
Qed.

Lemma main_step_spec (v : validator) (t : tally) (d : path) :
  main_step project_root disk now (v, t) d
  = match validate_file project_root disk now init d with
    | Ok (v', r) =>
        Ok (v',
            Tally (total_errors t + List.length (r_errors r))
                  (total_warnings t + List.length (r_warnings r))
                  (if negb (success r) then failed_files t ++ [d]
                   else failed_files t))
    | Raise e => Raise e
    end.
Proof.
  unfold main_step. rewrite (validate_file_fresh v init).
  destruct (validate_file project_root disk now init d) as [[v' r]|e];
    reflexivity.
Qed.

Lemma loop_failed_files (docs : list path) :
  forall v t,
    match for_each (main_step project_root disk now) docs (v, t) with
    | Ok (_, t') =>
        failed_files t' = []
        <-> (failed_files t = [] /\ Forall (clean project_root disk now) docs)
    | Raise _ => ~ Forall (clean project_root disk now) docs
    end.
Proof.
  induction docs as [|d docs IH]; intros v t; cbn [for_each].
  - split; [intros H; split; [exact H | constructor] | intros [H _]; exact H].
  - rewrite main_step_spec.
    destruct (validate_file project_root disk now init d) as [[v1 r]|e] eqn:E;
      cbn [bind].
    + apply validate_file_result in E as R; destruct R as (_ & _ & S).
      specialize (IH v1
        (Tally (total_errors t + List.length (r_errors r))
               (total_warnings t + List.length (r_warnings r))
               (if negb (success r) then failed_files t ++ [d]
                else failed_files t))).
      destruct (for_each (main_step project_root disk now) docs _)
        as [[v2 t2]|e2]; cbn [failed_files] in IH.
      * rewrite IH. destruct (success r) eqn:Es; cbn [negb].
        -- split.
           ++ intros [Ht Hd]; split; [exact Ht|].
              constructor; [|exact Hd].
              exists v1, r; split; [exact E | apply S; reflexivity].
           ++ intros [Ht Hd]; split; [exact Ht|].
              inversion Hd; assumption.
        -- split.
           ++ intros [Ht _]; destruct (failed_files t); discriminate Ht.
           ++ intros [_ Hd]; exfalso. inversion Hd as [|? ? Hc _]; subst.
              destruct Hc as (v3 & r3 & E3 & Z).
              rewrite E in E3; injection E3 as _ <-.
              apply S in Z; congruence.
      * intros Hd; apply IH; inversion Hd; assumption.
    + intros Hd; inversion Hd as [|? ? Hc _]; subst.
      destruct Hc as (v3 & r3 & E3 & _). congruence.
Qed.

End Run.

(** The exit status in terms of the validations that return: it is 0
    exactly when the validation of every document returns and returns no
    error, and 1 otherwise, in particular when a document has an error or
    does not exist; the warnings play no part in it. *)
Lemma exit_status_of_validations (project_root : path) (disk : FS.fs)
  (now : Date.datetime) (doc_files : list path) :
  (exit_status project_root disk now doc_files = 0
   <-> Forall (clean project_root disk now) doc_files)
  /\ (exit_status project_root disk now doc_files = 1
      <-> ~ Forall (clean project_root disk now) doc_files)
  /\ (forall d v r,
        In d doc_files ->
        validate_file project_root disk now init d = Ok (v, r) ->
        r_errors r <> [] ->
        exit_status project_root disk now doc_files = 1)
  /\ (forall d,
        In d doc_files -> FS.exists_ disk d = false ->
        exit_status project_root disk now doc_files = 1).
Proof.
  assert (Hiff : exit_status project_root disk now doc_files = 0
                 <-> Forall (clean project_root disk now) doc_files).
  { unfold exit_status, main.
    pose proof (loop_failed_files project_root disk now doc_files init
                  (Tally 0 0 [])) as L.
    destruct (for_each _ doc_files _) as [[v t]|e]; simpl in *.
    - destruct (failed_files t) eqn:F.
      + split; [intros _; apply L; reflexivity | reflexivity].
      + split; [discriminate|].
        intros H. assert (X : p :: l = []) by (apply L; split; auto).
        discriminate X.
    - split; [discriminate | intros H; contradiction]. }
  assert (Hone : exit_status project_root disk now doc_files = 1
                 <-> ~ Forall (clean project_root disk now) doc_files).
  { rewrite <- Hiff. unfold exit_status, main.
    destruct (for_each _ doc_files _) as [[v t]|e]; simpl.
    - destruct (failed_files t); split; congruence.
    - split; congruence. }
  split; [exact Hiff|]. split; [exact Hone|]. split.
  - intros d v r Hin E Hne. apply Hone. intros Hall.
    rewrite Forall_forall in Hall. destruct (Hall d Hin) as (v' & r' & E' & Z).
    rewrite E in E'; injection E' as _ <-. contradiction.
  - intros d Hin Hex. apply Hone. intros Hall.
    rewrite Forall_forall in Hall. destruct (Hall d Hin) as (v' & r' & E' & Z).
    unfold validate_file in E'.
    destruct (relative_to d project_root); simpl in E'; [|discriminate].
    rewrite Hex in E'; simpl in E'. injection E' as _ <-. discriminate Z.
Qed.

(** C7: the outcome of validating a document does not depend on what the
    validator held before, so validating it again right after, or after
    some other document, gives the same errors and warnings in the same
    order. *)
Theorem validate_file_idempotent (project_root : path) (disk : FS.fs)
  (now : Date.datetime) (doc_path other : path) (v : validator) :
  (forall v', validate_file project_root disk now v' doc_path
              = validate_file project_root disk now v doc_path)
  /\ match validate_file project_root disk now v doc_path with
     | Ok (v1, r1) =>
         validate_file project_root disk now v1 doc_path = Ok (v1, r1)
     | Raise e =>
         forall v', validate_file project_root disk now v' doc_path = Raise e
     end
  /\ match validate_file project_root disk now v other with
     | Ok (v1, _) =>
         validate_file project_root disk now v1 doc_path
         = validate_file project_root disk now v doc_path
     | Raise _ => True
     end.
Proof.
  split; [intros v'; apply validate_file_fresh|]. split.
  - destruct (validate_file project_root disk now v doc_path)
      as [[v1 r1]|e] eqn:E.
    + rewrite <- E; apply validate_file_fresh.
    + intros v'; rewrite <- E; apply validate_file_fresh.
  - destruct (validate_file project_root disk now v other) as [[v1 r]|e];
      [apply validate_file_fresh | exact I].
Qed.

(** C4: the code departs from the claim where a validation raises.  The
    document [docs/baddate.md] exists, the two checks that report errors
    (links, required sections) report none on it, and the stamp check
    raises on its stamp 2024-13-99: the run over this one document ends
    with the exception and status 1, although no document has an error or
    is missing.  The same holds for a clean document that lies outside the
    project root, where the first statement of [validate_file] raises. *)
Theorem exit_status_after_exception :
  FS.exists_ Scenario.disk Scenario.baddate_md = true
  /\ _check_broken_links Scenario.root Scenario.disk Scenario.baddate_md
       Scenario.baddate_content init = Ok init
  /\ _check_required_sections Scenario.baddate_md Scenario.baddate_content
       init = init
  /\ main Scenario.root Scenario.disk Scenario.today [Scenario.baddate_md]
     = Raise (ValueError "time data does not match format")
  /\ exit_status Scenario.root Scenario.disk Scenario.today
       [Scenario.baddate_md] = 1
  /\ FS.read_text Scenario.disk_with_tmp Scenario.outside_md
     = Ok Scenario.clean_content
  /\ validate_file Scenario.root Scenario.disk_with_tmp Scenario.today init
       Scenario.clean_md
     = Ok (init, Result true [] [])
  /\ main Scenario.root Scenario.disk_with_tmp Scenario.today
       [Scenario.outside_md]
     = Raise (ValueError "path is not in the subpath of the project root")
  /\ exit_status Scenario.root Scenario.disk_with_tmp Scenario.today
       [Scenario.outside_md] = 1.
Proof. repeat split; vm_compute; reflexivity. Qed.

(** C5: the code departs from the claim for a missing file outside the
    project root.  The command line [validate_docs.py /tmp/x.md] makes
    [main] validate [/tmp/x.md], which does not exist; the first statement
    of [validate_file] prints the path relative to the root and raises
    before the existence test is reached, so no result with its one error
    is returned and the run ends there with the exception.  For a missing
    file below the root the test is reached and gives the one error. *)
Theorem missing_file_outside_root_raises :
  doc_files_of Scenario.root Scenario.disk (fun _ _ => [])
    ["validate_docs.py"; "/tmp/x.md"] = [["tmp"; "x.md"]]
  /\ FS.exists_ Scenario.disk ["tmp"; "x.md"] = false
  /\ validate_file Scenario.root Scenario.disk Scenario.today init
       ["tmp"; "x.md"]
     = Raise (ValueError "path is not in the subpath of the project root")
  /\ main_argv Scenario.root Scenario.disk Scenario.today (fun _ _ => [])
       ["validate_docs.py"; "/tmp/x.md"]
     = Raise (ValueError "path is not in the subpath of the project root")
  /\ validate_file Scenario.root Scenario.disk Scenario.today init
       ["proj"; "docs"; "gone.md"]
     = Ok (Validator ["File does not exist: /proj/docs/gone.md"] [] [],
           Result false ["File does not exist: /proj/docs/gone.md"] []).
Proof. repeat split; vm_compute; reflexivity. Qed.

(** ** Required sections *)

Lemma search_occurs (ic : bool) (r : regex) (text : string) (m : mobj) :
  search ic r text = Some m -> occurs ic r text.
Proof.
  intros H; apply search_sound in H; destruct H as (st' & O & _).
  exists st'; exact O.
Qed.


Lemma has_heading_true (section content : string) :
  occurs true (heading_pattern section) content ->
  has_heading section content = true.
Proof.
  intros O. unfold has_heading.
  assert (W : star_ok (heading_pattern section) = true).
  { unfold heading_pattern; simpl. clear O.
    induction section as [|c s IH]; [reflexivity | exact IH]. }
  destruct (search_complete W O) as [m ->]. reflexivity.
Qed.




(** ** The three forms of the stamp and their priority *)

Lemma chars_of_chars (l : list ascii) : Str.chars (Str.of_chars l) = l.
Proof. apply list_ascii_of_string_of_list_ascii. Qed.

Lemma of_chars_chars (s : string) : Str.of_chars (Str.chars s) = s.
Proof. apply string_of_list_ascii_of_string. Qed.

Lemma iso_date_shape (w : list ascii) :
  lang false iso_date w -> iso_shape (Str.of_chars w) = true.
Proof.
  unfold iso_date, digit; cbn [Rep]; intros H. inv_lang.
  unfold iso_shape. rewrite chars_of_chars. cbn [app].
  repeat match goal with
    | H : Char.eqb_ic false _ _ = true |- _ =>
        apply Ascii.eqb_eq in H; subst
    end.
  cbn [forallb].
  repeat match goal with
    | H : Char.is_digit _ = true |- _ => rewrite H; clear H
    end.
  reflexivity.
Qed.

(** Every form captures, as its group 1, a text of the shape dddd-dd-dd. *)
Lemma stamp_capture_shape (label : string) (a b : mstate) :
  matches false (stamp_pattern label) a b ->
  iso_shape (cap 1 (caps b)) = true.
Proof.
  unfold stamp_pattern; intros H.
  inversion H as [| | |r1 r2 a0 c b0 _ H2| | | | | |]; subst; clear H.
  inversion H2 as [| | |r1 r2 a0 d b0 _ H3| | | | | |]; subst; clear H2.
  inversion H3 as [| | | | | | | |i r a0 e H4|]; subst; clear H3.
  destruct (matches_lang H4) as (w & E & L).
  rewrite (consumed_app d e w E).
  unfold cap; simpl. apply iso_date_shape; exact L.
Qed.

Lemma stamp_pattern_star_ok (label : string) :
  star_ok (stamp_pattern label) = true.
Proof.
  unfold stamp_pattern; simpl.
  induction label as [|c s IH]; [reflexivity | exact IH].
Qed.

Lemma search_group (r : regex) (text : string) :
  star_ok r = true -> occurs false r text ->
  exists m st, search false r text = Some m
    /\ occurs_with false r text st /\ group 1 m = cap 1 (caps st).
Proof.
  intros W O. destruct (search_complete W O) as [m E].
  destruct (search_sound _ _ _ E) as (st & Ost & C).
  exists m, st; repeat split; try assumption.
  unfold group; rewrite C; reflexivity.
Qed.

(** Whatever form gives the stamp, its text has the shape dddd-dd-dd. *)
Lemma find_stamp_shape (content d : string) :
  find_stamp stamp_patterns content = Some d -> iso_shape d = true.
Proof.
  unfold stamp_patterns; cbn [find_stamp].
  destruct (search false bold_stamp content) as [m|] eqn:E1;
    [|destruct (search false plain_stamp content) as [m|] eqn:E2;
      [|destruct (search false short_stamp content) as [m|] eqn:E3;
        [|discriminate]]];
    intros H; injection H as <-;
    match goal with
    | E : search _ _ _ = Some _ |- _ =>
        apply search_sound in E; destruct E as (st & (l1 & l2 & _ & M) & C)
    end;
    unfold group; rewrite C; eapply stamp_capture_shape; exact M.
Qed.

(** C8: there are three forms, each capturing a text of the shape
    dddd-dd-dd, and the stamp is taken from the first form, in the order
    bold, plain, short, that matches anywhere in the text: a later form is
    consulted only when no earlier form matches at any position. *)
Theorem stamp_priority (content : string) :
  stamp_patterns
  = [stamp_pattern "**Last Updated**:"; stamp_pattern "Last Updated:";
     stamp_pattern "Updated:"]
  /\ (forall d, find_stamp stamp_patterns content = Some d ->
        iso_shape d = true)
  /\ (occurs false bold_stamp content ->
      exists st, occurs_with false bold_stamp content st
        /\ find_stamp stamp_patterns content = Some (cap 1 (caps st)))
  /\ (~ occurs false bold_stamp content ->
      occurs false plain_stamp content ->
      exists st, occurs_with false plain_stamp content st
        /\ find_stamp stamp_patterns content = Some (cap 1 (caps st)))
  /\ (~ occurs false bold_stamp content ->
      ~ occurs false plain_stamp content ->
      occurs false short_stamp content ->
      exists st, occurs_with false short_stamp content st
        /\ find_stamp stamp_patterns content = Some (cap 1 (caps st)))
  /\ (~ occurs false bold_stamp content ->
      ~ occurs false plain_stamp content ->
      ~ occurs false short_stamp content ->
      find_stamp stamp_patterns content = None).
Proof.
  pose proof (stamp_pattern_star_ok "**Last Updated**:") as W1.
  pose proof (stamp_pattern_star_ok "Last Updated:") as W2.
  pose proof (stamp_pattern_star_ok "Updated:") as W3.
  split; [reflexivity|]. split; [apply find_stamp_shape|].
  unfold stamp_patterns; cbn [find_stamp].
  split; [|split; [|split]].
  - intros O1. destruct (search_group W1 O1) as (m & st & E & Ost & G).
    exists st; split; [exact Ost|]. unfold bold_stamp in *.
    rewrite E, G; reflexivity.
  - intros N1 O2. destruct (search_group W2 O2) as (m & st & E & Ost & G).
    exists st; split; [exact Ost|]. unfold bold_stamp, plain_stamp in *.
    rewrite (search_none W1 N1), E, G; reflexivity.
  - intros N1 N2 O3. destruct (search_group W3 O3) as (m & st & E & Ost & G).
    exists st; split; [exact Ost|].
    unfold bold_stamp, plain_stamp, short_stamp in *.
    rewrite (search_none W1 N1), (search_none W2 N2), E, G; reflexivity.
  - intros N1 N2 N3. unfold bold_stamp, plain_stamp, short_stamp in *.
    rewrite (search_none W1 N1), (search_none W2 N2), (search_none W3 N3).
    reflexivity.
Qed.

(** The short form stands first in the text and the bold form after it:
    the bold form gives the stamp. *)
Lemma stamp_priority_witness :
  iso_shape "2024-05-05" = true
  /\ exists st, occurs_with false bold_stamp Scenario.two_stamps st
       /\ find_stamp stamp_patterns Scenario.two_stamps
          = Some (cap 1 (caps st))
       /\ cap 1 (caps st) = "2024-05-05".
Proof.
  destruct (stamp_priority Scenario.two_stamps) as (_ & S & B & _).
  split; [apply S; vm_compute; reflexivity|].
  destruct B as (st & O & F).
  - eapply search_occurs; vm_compute; reflexivity.
  - exists st; split; [exact O|]. split; [exact F|].
    assert (E : find_stamp stamp_patterns Scenario.two_stamps
                = Some "2024-05-05") by (vm_compute; reflexivity).
    rewrite E in F; injection F as <-; reflexivity.
Defined.

(** C3: a stamp dated 181 days before today draws the staleness warning,
    which names the 181 days and the date as the document writes it; one
    dated 180 days before today draws nothing. *)
Theorem staleness_threshold (now : Date.datetime) (doc_path : path)
  (content text : string) (last_updated : Date.datetime) (v : validator) :
  Date.valid_datetime now = true ->
  find_stamp stamp_patterns content = Some text ->
  Date.strptime text = Ok last_updated ->
  ((Date.toordinal (Date.dt_date now)
    - Date.toordinal (Date.dt_date last_updated) = 181)%Z ->
   _check_last_updated now doc_path content v
   = Ok (warnings_append
           ("Document hasn't been updated in 181 days (since "
            +++ text +++ ")") v))
  /\ ((Date.toordinal (Date.dt_date now)
       - Date.toordinal (Date.dt_date last_updated) = 180)%Z ->
      _check_last_updated now doc_path content v = Ok v).
Proof.
  intros V F P.
  pose proof (delta_days_midnight now last_updated V (strptime_midnight _ P))
    as D.
  pose proof (strptime_iso text (find_stamp_shape _ F) P) as S.
  unfold _check_last_updated; rewrite F, P; cbn [bind].
  split; intros E; rewrite D, E; [|reflexivity].
  unfold stale_message; rewrite S; reflexivity.
Qed.

Lemma staleness_threshold_witness :
  _check_last_updated Scenario.today ["proj"; "a.md"]
    "Last Updated: 2024-01-01" init
  = Ok (Validator []
          ["Document hasn't been updated in 181 days (since 2024-01-01)"] [])
  /\ _check_last_updated Scenario.today ["proj"; "a.md"]
       "Last Updated: 2024-01-02" init
     = Ok init.
Proof.
  split.
  - apply (@staleness_threshold Scenario.today ["proj"; "a.md"]
             "Last Updated: 2024-01-01" "2024-01-01"
             (Date.midnight (Date.MkDate 2024 1 1)) init);
      vm_compute; reflexivity.
  - apply (@staleness_threshold Scenario.today ["proj"; "a.md"]
             "Last Updated: 2024-01-02" "2024-01-02"
             (Date.midnight (Date.MkDate 2024 1 2)) init);
      vm_compute; reflexivity.
Defined.

(** ** Code references *)

Lemma findall_from_nil (ic : bool) (r : regex) :
  forall s p pos skip,
    (forall l1 l2 p' pos', s = l1 ++ l2 -> match_at ic r p' l2 pos' = None) ->
    findall_from ic r p s pos skip = [].
Proof.
  induction s as [|c s IH]; intros p pos skip H.
  - destruct skip; simpl; [|reflexivity].
    rewrite (H [] [] p pos eq_refl); reflexivity.
  - assert (H' : forall l1 l2 p' pos',
               s = l1 ++ l2 -> match_at ic r p' l2 pos' = None).
    { intros l1 l2 p' pos' E. apply (H (c :: l1) l2); rewrite E; reflexivity. }
    destruct skip; simpl.
    + rewrite (H [] (c :: s) p pos eq_refl). apply IH; exact H'.
    + apply IH; exact H'.
Qed.

Lemma forallb_not_bt_count (l : list ascii) :
  forallb not_bt l = true -> count_occ ascii_dec l Char.backtick = 0.
Proof.
  intros H. apply count_occ_not_In. intros Hin.
  rewrite forallb_forall in H. specialize (H _ Hin).
  unfold not_bt in H. rewrite Ascii.eqb_refl in H. discriminate.
Qed.

Lemma count_not_bt (l : list ascii) :
  count_occ ascii_dec l Char.backtick = 0 -> forallb not_bt l = true.
Proof.
  intros H. apply forallb_forall. intros c Hin. unfold not_bt.
  destruct (Ascii.eqb_spec c Char.backtick) as [->|]; [|reflexivity].
  exfalso. revert Hin. apply count_occ_not_In with (eq_dec := ascii_dec).
  exact H.
Qed.

(** The text before the first backtick is determined. *)
Lemma split_first_bt (a a' b b' : list ascii) :
  forallb not_bt a = true -> forallb not_bt a' = true ->
  a ++ Char.backtick :: b = a' ++ Char.backtick :: b' -> a = a' /\ b = b'.
Proof.
  revert a'; induction a as [|x a IH]; intros [|y a'] Ha Ha' E; simpl in *.
  - injection E as <-; split; reflexivity.
  - injection E as <- _. rewrite andb_true_iff in Ha'. destruct Ha' as [X _].
    discriminate X.
  - injection E as -> _. rewrite andb_true_iff in Ha. destruct Ha as [X _].
    discriminate X.
  - injection E as <- E.
    apply andb_true_iff in Ha; destruct Ha as [_ Ha].
    apply andb_true_iff in Ha'; destruct Ha' as [_ Ha'].
    destruct (IH a' Ha Ha' E) as [-> ->]; split; reflexivity.
Qed.

(** In a text with a single span, a pair of backticks with none between
    them encloses that span. *)
Lemma single_span (l1 body rest' pre span post : list ascii) :
  forallb not_bt pre = true -> forallb not_bt span = true ->
  forallb not_bt post = true -> forallb not_bt body = true ->
  l1 ++ Char.backtick :: body ++ Char.backtick :: rest'
  = pre ++ Char.backtick :: span ++ Char.backtick :: post ->
  body = span.
Proof.
  intros Hpre Hspan Hpost Hbody E.
  assert (C : count_occ ascii_dec l1 Char.backtick = 0).
  { apply (f_equal (fun l => count_occ ascii_dec l Char.backtick)) in E.
    repeat (rewrite ?count_occ_app, ?count_occ_cons_eq in E by reflexivity).
    rewrite (forallb_not_bt_count _ Hpre), (forallb_not_bt_count _ Hspan),
      (forallb_not_bt_count _ Hpost), (forallb_not_bt_count _ Hbody) in E.
    lia. }
  apply count_not_bt in C.
  destruct (split_first_bt _ _ _ _ C Hpre E) as [_ E2].
  destruct (split_first_bt _ _ _ _ Hbody Hspan E2) as [E3 _]. exact E3.
Qed.

Lemma last_app_r (A : Type) (a b : list A) (d : A) :
  b <> [] -> last (a ++ b) d = last b d.
Proof.
  intros Hb; induction a as [|x a IH]; [reflexivity|].
  simpl. destruct (a ++ b) eqn:E; [|exact IH].
  apply app_eq_nil in E; destruct E as [_ E]; contradiction.
Qed.

Lemma forallb_last (A : Type) (p : A -> bool) (l : list A) (d : A) :
  forallb p l = true -> l <> [] -> p (last l d) = true.
Proof.
  intros H N. destruct (exists_last N) as (l' & x & ->).
  rewrite last_last. rewrite forallb_app in H.
  apply andb_true_iff in H; destruct H as [_ H]. simpl in H.
  rewrite andb_true_r in H; exact H.
Qed.

Lemma forallb_impl (A : Type) (p q : A -> bool) (l : list A) :
  (forall x, p x = true -> q x = true) ->
  forallb p l = true -> forallb q l = true.
Proof.
  intros I H. rewrite forallb_forall in *. intros x Hx; apply I, H, Hx.
Qed.

Lemma digit_not_bt (c : ascii) : Char.is_digit c = true -> not_bt c = true.
Proof.
  intros H. unfold not_bt.
  destruct (Ascii.eqb_spec c Char.backtick) as [->|]; [|reflexivity].
  vm_compute in H; discriminate.
Qed.

Lemma none_of_bt (c : ascii) :
  negb (Ascii.eqb c "`" || false) = true -> not_bt c = true.
Proof. rewrite orb_false_r. intros H; exact H. Qed.

Lemma chars_append (a b : string) :
  Str.chars (a +++ b) = Str.chars a ++ Str.chars b.
Proof.
  induction a as [|c a IH]; [reflexivity|]. simpl. f_equal. exact IH.
Qed.

Lemma numbered_word (w : list ascii) :
  lang false numbered_pattern w -> ref_word w.
Proof.
  unfold numbered_pattern, none_of, digit; intros H.
  inversion H as [| | |? ? w0 w1 H0 H1| | | | | |]; subst; clear H.
  inversion H0 as [|? ? Hc| | | | | | | |]; subst; clear H0.
  apply Ascii.eqb_eq in Hc; subst.
  inversion H1 as [| | |? ? wg w2 Hg H2| | | | | |]; subst; clear H1.
  inversion Hg as [| | | | | | | |? ? ? Hg'|]; subst; clear Hg.
  inversion Hg' as [| | |? ? wp w3 Hp H3| | | | | |]; subst; clear Hg'.
  apply lang_plus_cls in Hp; destruct Hp as [_ Hp].
  inversion H3 as [| | |? ? wd we Hd He| | | | | |]; subst; clear H3.
  inversion Hd as [|? ? Hc| | | | | | | |]; subst; clear Hd.
  apply Ascii.eqb_eq in Hc; subst.
  inversion He as [| | | | | | | |? ? ? He'|]; subst; clear He.
  apply (lang_alts (source_exts ++ ["py"; "sql"; "md"])) in He';
    destruct He' as (x & Hx & ->).
  inversion H2 as [| | |? ? wc w4 Hcol H4| | | | | |]; subst; clear H2.
  inversion Hcol as [|? ? Hc| | | | | | | |]; subst; clear Hcol.
  apply Ascii.eqb_eq in Hc; subst.
  inversion H4 as [| | |? ? wn w5 Hn H5| | | | | |]; subst; clear H4.
  inversion Hn as [| | | | | | | |? ? ? Hn'|]; subst; clear Hn.
  apply lang_plus_cls in Hn'; destruct Hn' as [Nn Hn'].
  inversion H5 as [|? ? Hc| | | | | | | |]; subst; clear H5.
  apply Ascii.eqb_eq in Hc; subst.
  exists ((wp ++ ["."%char] ++ Str.chars x) ++ [":"%char] ++ wn).
  split; [|split].
  - change Char.backtick with "`"%char. simpl.
    repeat rewrite <- app_assoc. reflexivity.
  - rewrite !forallb_app. 
    assert (Hx' : forallb not_bt (Str.chars x) = true).
    { simpl in Hx.
      repeat (destruct Hx as [<-|Hx]; [reflexivity|]). destruct Hx. }
    rewrite Hx'.
    rewrite (@forallb_impl _ Char.is_digit not_bt wn digit_not_bt Hn').
    rewrite (@forallb_impl _ _ not_bt wp none_of_bt Hp). reflexivity.
  - rewrite last_app_r by (intros E; apply app_eq_nil in E;
                           destruct E; discriminate).
    rewrite last_app_r by exact Nn.
    unfold closing. rewrite (@forallb_last _ _ wn Char.backtick Hn' Nn).
    reflexivity.
Qed.

Lemma rooted_word (root : string) (w : list ascii) :
  no_backtick root = true -> lang false (rooted_pattern root) w -> ref_word w.
Proof.
  unfold rooted_pattern, none_of, no_backtick; intros Hr H.
  inversion H as [| | |? ? w0 w1 H0 H1| | | | | |]; subst; clear H.
  inversion H0 as [|? ? Hc| | | | | | | |]; subst; clear H0.
  apply Ascii.eqb_eq in Hc; subst.
  inversion H1 as [| | |? ? wg w2 Hg H2| | | | | |]; subst; clear H1.
  inversion Hg as [| | | | | | | |? ? ? Hg'|]; subst; clear Hg.
  inversion Hg' as [| | |? ? wl w3 Hl H3| | | | | |]; subst; clear Hg'.
  apply lang_lit in Hl; subst.
  inversion H3 as [| | |? ? wp w4 Hp H4| | | | | |]; subst; clear H3.
  apply lang_plus_cls in Hp; destruct Hp as [_ Hp].
  inversion H4 as [| | |? ? wd we Hd He| | | | | |]; subst; clear H4.
  inversion Hd as [|? ? Hc| | | | | | | |]; subst; clear Hd.
  apply Ascii.eqb_eq in Hc; subst.
  inversion He as [| | | | | | | |? ? ? He'|]; subst; clear He.
  apply (lang_alts source_exts) in He'; destruct He' as (x & Hx & ->).
  inversion H2 as [|? ? Hc| | | | | | | |]; subst; clear H2.
  apply Ascii.eqb_eq in Hc; subst.
  exists (Str.chars root ++ wp ++ ["."%char] ++ Str.chars x).
  split; [|split].
  - change Char.backtick with "`"%char. simpl.
    repeat rewrite <- app_assoc. reflexivity.
  - rewrite !forallb_app, Hr.
    rewrite (@forallb_impl _ _ not_bt wp none_of_bt Hp).
    simpl in Hx.
    repeat (destruct Hx as [<-|Hx]; [reflexivity|]). destruct Hx.
  - assert (Nx : Str.chars x <> []).
    { simpl in Hx.
      repeat (destruct Hx as [<-|Hx]; [discriminate|]). destruct Hx. }
    rewrite !app_assoc. rewrite last_app_r by exact Nx.
    simpl in Hx.
    repeat (destruct Hx as [<-|Hx]; [reflexivity|]). destruct Hx.
Qed.

Lemma closing_ext (p ext : string) :
  In ext [".py"; ".sql"; ".md"] ->
  closing (last (Str.chars p ++ Str.chars ext) Char.backtick) = false.
Proof.
  intros Hext.
  assert (Nx : Str.chars ext <> []).
  { simpl in Hext.
    repeat (destruct Hext as [<-|Hext]; [discriminate|]). destruct Hext. }
  rewrite last_app_r by exact Nx.
  simpl in Hext.
  repeat (destruct Hext as [<-|Hext]; [reflexivity|]). destruct Hext.
Qed.

Lemma span_not_bt (p ext : string) :
  In ext [".py"; ".sql"; ".md"] -> no_backtick p = true ->
  forallb not_bt (Str.chars p ++ Str.chars ext) = true.
Proof.
  intros Hext Hp. rewrite forallb_app. unfold no_backtick in Hp; rewrite Hp.
  simpl in Hext.
  repeat (destruct Hext as [<-|Hext]; [reflexivity|]). destruct Hext.
Qed.

(** No reference pattern matches at the opening backtick of a span that
    ends in one of the three extensions, whatever follows the span. *)
Lemma no_match_at_span (pat : regex) (p ext post : string)
  (prev : option ascii) (pos : nat) :
  (forall w, lang false pat w -> ref_word w) ->
  In ext [".py"; ".sql"; ".md"] -> no_backtick p = true ->
  match_at false pat prev (Str.chars ("`" +++ p +++ ext +++ "`" +++ post)) pos
  = None.
Proof.
  intros Hw Hext Hp.
  destruct (match_at false pat prev _ pos) as [m|] eqn:Em; [|reflexivity].
  exfalso.
  apply match_at_sound in Em; destruct Em as (st' & M & _ & _ & _).
  destruct (matches_lang M) as (w & Ew & L); simpl in Ew.
  destruct (Hw w L) as (mid & -> & Hmid & Hclose).
  rewrite !chars_append in Ew. simpl in Ew. injection Ew as Ew.
  rewrite <- !app_assoc in Ew. rewrite app_assoc in Ew. simpl in Ew.
  symmetry in Ew.
  destruct (split_first_bt _ _ _ _ Hmid (@span_not_bt p ext Hext Hp) Ew)
    as [-> _].
  rewrite (@closing_ext p ext Hext) in Hclose. discriminate.
Qed.

(** A text with one span in backticks, the span ending in one of the three
    extensions, holds no match of a reference pattern. *)
Lemma no_reference_found (pat : regex) (pre p ext post : string) :
  (forall w, lang false pat w -> ref_word w) ->
  In ext [".py"; ".sql"; ".md"] ->
  no_backtick pre = true -> no_backtick p = true ->
  no_backtick post = true ->
  findall false pat (pre +++ "`" +++ p +++ ext +++ "`" +++ post) = [].
Proof.
  intros Hw Hext Hpre Hp Hpost. unfold findall.
  apply findall_from_nil. intros l1 l2 p' pos' E.
  destruct (match_at false pat p' l2 pos') as [m|] eqn:Em; [|reflexivity].
  exfalso.
  apply match_at_sound in Em; destruct Em as (st' & M & _ & _ & _).
  destruct (matches_lang M) as (w & Ew & L); simpl in Ew.
  destruct (Hw w L) as (mid & -> & Hmid & Hclose).
  rewrite !chars_append in E. subst l2.
  change (Str.chars "`") with [Char.backtick] in E.
  assert (Emid : mid = Str.chars p ++ Str.chars ext).
  { apply (@single_span l1 mid (rest st') (Str.chars pre)
             (Str.chars p ++ Str.chars ext) (Str.chars post));
      try assumption; [apply span_not_bt; assumption|].
    symmetry in E. simpl in E. rewrite <- !app_assoc in E. simpl in E.
    rewrite <- !app_assoc. exact E. }
  subst mid. rewrite (@closing_ext p ext Hext) in Hclose. discriminate.
Qed.

(** C10: a span in backticks that ends in [.py], [.sql] or [.md], with no
    line number after it, is matched by none of the three shapes at its
    opening backtick, whatever surrounds it; where it is the only span of
    the text, the check leaves the accumulators as they were, whether or
    not the file exists.  With a line number the same file is checked, and
    without one only the [src/] and [app/] shapes with a [ts], [tsx], [js]
    or [jsx] extension are. *)
Theorem unnumbered_reference_ignored :
  (forall (pat : regex) (p ext post : string) (prev : option ascii)
          (pos : nat),
     In pat file_patterns -> In ext [".py"; ".sql"; ".md"] ->
     no_backtick p = true ->
     match_at false pat prev
       (Str.chars ("`" +++ p +++ ext +++ "`" +++ post)) pos = None)
  /\ (forall (project_root : path) (disk : FS.fs) (pre p ext post : string)
             (v : validator),
        In ext [".py"; ".sql"; ".md"] ->
        no_backtick pre = true -> no_backtick p = true ->
        no_backtick post = true ->
        _check_code_file_references project_root disk
          (pre +++ "`" +++ p +++ ext +++ "`" +++ post) v = v)
  /\ _check_code_file_references Scenario.root Scenario.disk
       "see `src/foo.py:12`" init
     = Validator [] ["Referenced file may not exist: src/foo.py"] []
  /\ _check_code_file_references Scenario.root Scenario.disk
       "see `src/foo.ts` and `app/page.jsx`" init
     = Validator []
         ["Referenced file may not exist: src/foo.ts";
          "Referenced file may not exist: app/page.jsx"] []
  /\ _check_code_file_references Scenario.root Scenario.disk
       "see `lib/foo.ts` and `src/foo.py` and `app/schema.sql`" init
     = init.
Proof.
  assert (Hw : forall pat, In pat file_patterns ->
                 forall w, lang false pat w -> ref_word w).
  { intros pat [<-|[<-|[<-|[]]]] w.
    - apply numbered_word.
    - apply rooted_word; reflexivity.
    - apply rooted_word; reflexivity. }
  split; [|split; [|repeat split; vm_compute; reflexivity]].
  - intros pat p ext post prev pos Hpat Hext Hp.
    apply no_match_at_span; [apply Hw; exact Hpat | exact Hext | exact Hp].
  - intros project_root disk pre p ext post v Hext Hpre Hp Hpost.
    unfold _check_code_file_references, file_patterns. cbn [fold_left].
    rewrite !(fun pat H =>
                @no_reference_found pat pre p ext post (Hw pat H)
                  Hext Hpre Hp Hpost);
      [reflexivity | | | ]; simpl; auto.
Qed.

Lemma unnumbered_reference_ignored_witness :
  _check_code_file_references Scenario.root Scenario.disk
    ("see " +++ "`" +++ "src/foo" +++ ".py" +++ "`" +++ " for details") init
  = init.
Proof.
  destruct unnumbered_reference_ignored as (_ & H & _).
  apply (H Scenario.root Scenario.disk "see " "src/foo" ".py" " for details"
           init).
  - simpl; auto.
  - reflexivity.
  - reflexivity.
  - reflexivity.
Defined.

(** * Further properties of the code *)

(** ** The checkers only append *)

Lemma extend_extend (es ws es' ws' : list string) (v : validator) :
  extend es' ws' (extend es ws v) = extend (es ++ es') (ws ++ ws') v.
Proof. unfold extend; simpl. rewrite <- !app_assoc. reflexivity. Qed.

Lemma extend_nil (v : validator) : extend [] [] v = v.
Proof. destruct v; unfold extend; simpl. rewrite !app_nil_r. reflexivity. Qed.

Lemma fold_extend (A : Type) (f : validator -> A -> validator)
  (g : A -> list string * list string) :
  (forall v a, f v a = extend (fst (g a)) (snd (g a)) v) ->
  forall l v,
    fold_left f l v
    = extend (flat_map (fun a => fst (g a)) l)
             (flat_map (fun a => snd (g a)) l) v.
Proof.
  intros Hf; induction l as [|a l IH]; intros v; simpl.
  - symmetry; apply extend_nil.
  - rewrite IH, Hf, extend_extend. reflexivity.
Qed.

Lemma for_each_extend (A : Type) (f : validator -> A -> res validator)
  (g : A -> res (list string)) :
  (forall v a, f v a = (es <- g a ;; Ok (extend es [] v))) ->
  forall l v,
    for_each f l v
    = match for_each f l init with
      | Ok d => Ok (extend (errors d) [] v)
      | Raise e => Raise e
      end
    /\ (forall d, for_each f l init = Ok d ->
          warnings d = [] /\ fixes_applied d = []).
Proof.
  intros Hf.
  assert (G : forall l v,
             for_each f l v
             = match for_each (fun acc a => es <- g a ;; Ok (acc ++ es)) l []
               with
               | Ok es => Ok (extend es [] v)
               | Raise e => Raise e
               end).
  { assert (G' : forall l v acc,
               match for_each (fun acc a => es <- g a ;; Ok (acc ++ es)) l acc
               with
               | Ok es =>
                   exists es', es = acc ++ es'
                     /\ for_each f l v = Ok (extend es' [] v)
               | Raise e => for_each f l v = Raise e
               end).
    { induction l as [|a l IH]; intros v acc; simpl.
      - exists []; rewrite app_nil_r, extend_nil; split; reflexivity.
      - rewrite Hf. destruct (g a) as [es|e]; simpl; [|reflexivity].
        specialize (IH (extend es [] v) (acc ++ es)).
        destruct (for_each _ l (acc ++ es)) as [es2|e2].
        + destruct IH as (es' & -> & IH). exists (es ++ es').
          rewrite IH, extend_extend, app_assoc. split; reflexivity.
        + exact IH. }
    intros l v. specialize (G' l v []).
    destruct (for_each _ l []) as [es|e]; [|exact G'].
    destruct G' as (es' & -> & G'); exact G'. }
  intros l v. rewrite (G l v), (G l init).
  destruct (for_each _ l []) as [es|e]; simpl.
  - split; [reflexivity|]. intros d H; injection H as <-.
    split; reflexivity.
  - split; [reflexivity | discriminate].
Qed.

Section Frames.

Variable project_root : path.
Variable disk : FS.fs.
Variable now : Date.datetime.

Lemma check_link_extend (doc_path : path) (v : validator) (m : mobj) :
  check_link project_root disk doc_path v m
  = (es <- (v' <- check_link project_root disk doc_path init m ;;
            Ok (errors v')) ;;
     Ok (extend es [] v)).
Proof.
  unfold check_link.
  destruct (existsb _ _); simpl; [rewrite extend_nil; reflexivity|].
  destruct (negb _); simpl; [|rewrite extend_nil; reflexivity].
  destruct (relative_to _ _); cbn [bind]; [|reflexivity].
  unfold extend, errors_append; cbn [errors warnings fixes_applied init app].
  rewrite app_nil_r. reflexivity.
Qed.

Lemma links_frame (doc_path : path) (content : string) (v : validator) :
  _check_broken_links project_root disk doc_path content v
  = match _check_broken_links project_root disk doc_path content init with
    | Ok d => Ok (extend (errors d) [] v)
    | Raise e => Raise e
    end
  /\ (forall d,
        _check_broken_links project_root disk doc_path content init = Ok d ->
        warnings d = [] /\ fixes_applied d = []).
Proof.
  unfold _check_broken_links.
  apply (for_each_extend (check_link project_root disk doc_path)
           (fun m => v' <- check_link project_root disk doc_path init m ;;
                     Ok (errors v'))).
  intros v0 m; apply check_link_extend.
Qed.

Lemma check_file_ref_extend (v : validator) (m : mobj) :
  check_file_ref project_root disk v m
  = extend [] (warnings (check_file_ref project_root disk init m)) v.
Proof.
  unfold check_file_ref.
  destruct (existsb _ _); [symmetry; apply extend_nil|].
  destruct (negb _); [|symmetry; apply extend_nil].
  unfold extend, warnings_append; simpl. rewrite app_nil_r. reflexivity.
Qed.

Lemma flat_map_nil (A B : Type) (l : list A) :
  flat_map (fun _ : A => @nil B) l = [].
Proof. induction l; simpl; auto. Qed.

Lemma code_refs_frame (content : string) (v : validator) :
  _check_code_file_references project_root disk content v
  = extend []
      (warnings (_check_code_file_references project_root disk content init))
      v
  /\ errors (_check_code_file_references project_root disk content init) = []
  /\ fixes_applied
       (_check_code_file_references project_root disk content init) = [].
Proof.
  unfold _check_code_file_references.
  pose (g := fun m : mobj =>
               (@nil string,
                warnings (check_file_ref project_root disk init m))).
  assert (F : forall l v0,
             fold_left (check_file_ref project_root disk) l v0
             = extend [] (flat_map (fun m => snd (g m)) l) v0).
  { intros l v0.
    rewrite (fold_extend (check_file_ref project_root disk) g)
      by (intros; apply check_file_ref_extend).
    simpl. rewrite flat_map_nil. reflexivity. }
  pose (h := fun pat : regex =>
               (@nil string,
                flat_map (fun m => snd (g m)) (findall false pat content))).
  assert (H : forall l v0,
             fold_left (fun v1 pattern =>
                          fold_left (check_file_ref project_root disk)
                            (findall false pattern content) v1) l v0
             = extend [] (flat_map (fun pat => snd (h pat)) l) v0).
  { intros l v0.
    rewrite (fold_extend _ h) by (intros; apply F).
    simpl. rewrite flat_map_nil. reflexivity. }
  rewrite (H _ v), (H _ init). unfold extend; simpl.
  repeat split; reflexivity.
Qed.

Lemma stamp_frame (doc_path : path) (content : string) (v : validator) :
  _check_last_updated now doc_path content v
  = match _check_last_updated now doc_path content init with
    | Ok d => Ok (extend [] (warnings d) v)
    | Raise e => Raise e
    end
  /\ (forall d, _check_last_updated now doc_path content init = Ok d ->
        errors d = [] /\ fixes_applied d = []).
Proof.
  unfold _check_last_updated.
  destruct (find_stamp stamp_patterns content) as [text|].
  - destruct (Date.strptime text) as [lu|e]; simpl;
      [|split; [reflexivity | discriminate]].
    destruct (180 <? _)%Z; simpl.
    + split; [unfold extend, warnings_append; simpl;
              rewrite app_nil_r; reflexivity|].
      intros d H; injection H as <-; split; reflexivity.
    + split; [rewrite extend_nil; reflexivity|].
      intros d H; injection H as <-; split; reflexivity.
  - destruct (negb _); simpl.
    + split; [unfold extend, warnings_append; simpl;
              rewrite app_nil_r; reflexivity|].
      intros d H; injection H as <-; split; reflexivity.
    + split; [rewrite extend_nil; reflexivity|].
      intros d H; injection H as <-; split; reflexivity.
Qed.

Lemma sections_frame (doc_path : path) (content : string) (v : validator) :
  _check_required_sections doc_path content v
  = extend (errors (_check_required_sections doc_path content init)) [] v
  /\ warnings (_check_required_sections doc_path content init) = []
  /\ fixes_applied (_check_required_sections doc_path content init) = [].
Proof.
  unfold _check_required_sections.
  destruct (is_template doc_path);
    [rewrite extend_nil; repeat split; reflexivity|].
  pose (g := fun section : string =>
               (if negb (has_heading section content)
                then ["Missing required section: " +++ section] else [],
                @nil string)).
  assert (F : forall l v0,
             fold_left (fun v1 section =>
                          if negb (has_heading section content)
                          then errors_append
                                 ("Missing required section: " +++ section) v1
                          else v1) l v0
             = extend (flat_map (fun a => fst (g a)) l) [] v0).
  { intros l v0. rewrite (fold_extend _ g).
    - simpl. rewrite flat_map_nil. reflexivity.
    - intros v1 a; unfold g; simpl. destruct (negb _); simpl.
      + unfold extend, errors_append; simpl. rewrite app_nil_r. reflexivity.
      + symmetry; apply extend_nil. }
  rewrite (F _ v), (F _ init). unfold extend; simpl.
  repeat split; reflexivity.
Qed.

Lemma todo_frame (content : string) (v : validator) :
  _check_todo_markers content v
  = extend [] (warnings (_check_todo_markers content init)) v
  /\ errors (_check_todo_markers content init) = []
  /\ fixes_applied (_check_todo_markers content init) = [].
Proof.
  unfold _check_todo_markers.
  pose (g := fun m : mobj =>
               (@nil string,
                ["Found " +++ group 1 m +++ ": "
                 +++ Str.take 50 (group 2 m) +++ "..."])).
  assert (F : forall l v0,
             fold_left (fun v1 m =>
                          warnings_append
                            ("Found " +++ group 1 m +++ ": "
                             +++ Str.take 50 (group 2 m) +++ "...") v1) l v0
             = extend [] (flat_map (fun a => snd (g a)) l) v0).
  { intros l v0. rewrite (fold_extend _ g).
    - simpl. rewrite flat_map_nil. reflexivity.
    - intros v1 a; unfold g, extend, warnings_append; simpl.
      rewrite app_nil_r. reflexivity. }
  rewrite (F _ v), (F _ init). unfold extend; simpl.
  repeat split; reflexivity.
Qed.

End Frames.

(** X1: every checker leaves what the accumulators held and appends to one
    of them only, errors for links and sections, warnings for code
    references, the stamp and TODO markers; what it appends is what it
    reports on an empty validator, whatever was there before. *)
Theorem checkers_append_only (project_root : path) (disk : FS.fs)
  (now : Date.datetime) (doc_path : path) (content : string) (v : validator) :
  (_check_broken_links project_root disk doc_path content v
   = match _check_broken_links project_root disk doc_path content init with
     | Ok d => Ok (extend (errors d) [] v)
     | Raise e => Raise e
     end)
  /\ _check_code_file_references project_root disk content v
     = extend []
         (warnings (_check_code_file_references project_root disk content init))
         v
  /\ (_check_last_updated now doc_path content v
      = match _check_last_updated now doc_path content init with
        | Ok d => Ok (extend [] (warnings d) v)
        | Raise e => Raise e
        end)
  /\ _check_required_sections doc_path content v
     = extend (errors (_check_required_sections doc_path content init)) [] v
  /\ _check_todo_markers content v
     = extend [] (warnings (_check_todo_markers content init)) v.
Proof.
  split; [apply links_frame|].
  split; [apply code_refs_frame|].
  split; [apply stamp_frame|].
  split; [apply sections_frame | apply todo_frame].
Qed.



(** ** The tallies of the run *)

Lemma loop_tallies (project_root : path) (disk : FS.fs) (now : Date.datetime)
  (docs : list path) :
  forall v0 t0 v t,
    for_each (main_step project_root disk now) docs (v0, t0) = Ok (v, t) ->
    exists results,
      Forall2 (fun d r => exists v',
                 validate_file project_root disk now init d = Ok (v', r))
              docs results
      /\ total_errors t
         = total_errors t0
           + list_sum (map (fun r => List.length (r_errors r)) results)
      /\ total_warnings t
         = total_warnings t0
           + list_sum (map (fun r => List.length (r_warnings r)) results)
      /\ failed_files t
         = failed_files t0
           ++ map fst (filter (fun dr => negb (success (snd dr)))
                              (combine docs results)).
Proof.
  induction docs as [|d docs IH]; intros v0 t0 v t H; cbn [for_each] in H.
  - injection H as <- <-. exists []; simpl.
    rewrite !Nat.add_0_r, app_nil_r. repeat split; constructor.
  - rewrite main_step_spec in H.
    destruct (validate_file project_root disk now init d) as [[v1 r]|e] eqn:E;
      cbn [bind] in H; [|discriminate].
    apply IH in H; destruct H as (results & F & He & Hw & Hf).
    exists (r :: results); cbn [total_errors total_warnings failed_files] in *.
    split; [constructor; [exists v1; exact E | exact F]|].
    simpl. rewrite He, Hw, Hf.
    split; [lia|]. split; [lia|].
    destruct (success r); simpl; [reflexivity|].
    rewrite <- app_assoc. reflexivity.
Qed.

Lemma failed_le_errors (project_root : path) (disk : FS.fs)
  (now : Date.datetime) :
  forall docs results,
    Forall2 (fun d r => exists v',
               validate_file project_root disk now init d = Ok (v', r))
            docs results ->
    List.length (filter (fun dr : path * result => negb (success (snd dr)))
                        (combine docs results))
    <= list_sum (map (fun r => List.length (r_errors r)) results).
Proof.
  induction 1 as [|d r docs results (v' & E) _ IH]; simpl; [lia|].
  apply validate_file_result in E; destruct E as (_ & _ & S).
  destruct (success r) eqn:Es; simpl; [lia|].
  destruct (r_errors r) as [|e es]; simpl; [|lia].
  assert (X : false = true) by (apply S; reflexivity).
  discriminate X.
Qed.

(** X3: when the run reaches its summary, the total of errors and the
    total of warnings are the sums over the documents, in the order given,
    the failed files are the documents that did not succeed, in that
    order, and there are never more failed files than errors. *)
Theorem run_tallies (project_root : path) (disk : FS.fs)
  (now : Date.datetime) (doc_files : list path) (v : validator) (t : tally) :
  for_each (main_step project_root disk now) doc_files (init, Tally 0 0 [])
  = Ok (v, t) ->
  exists results,
    Forall2 (fun d r => exists v',
               validate_file project_root disk now init d = Ok (v', r))
            doc_files results
    /\ total_errors t
       = list_sum (map (fun r => List.length (r_errors r)) results)
    /\ total_warnings t
       = list_sum (map (fun r => List.length (r_warnings r)) results)
    /\ failed_files t
       = map fst (filter (fun dr => negb (success (snd dr)))
                         (combine doc_files results))
    /\ List.length (failed_files t) <= total_errors t.
Proof.
  intros H. apply loop_tallies in H.
  destruct H as (results & F & He & Hw & Hf). simpl in He, Hw, Hf.
  exists results. repeat split; try assumption.
  rewrite Hf, He, length_map. eapply failed_le_errors; exact F.
Qed.

Lemma run_tallies_witness :
  exists results,
    Forall2 (fun d r => exists v',
               validate_file Scenario.root Scenario.disk Scenario.today init d
               = Ok (v', r))
            [Scenario.users_md; Scenario.clean_md] results
    /\ total_errors (Tally 1 1 [Scenario.users_md])
       = list_sum (map (fun r => List.length (r_errors r)) results)
    /\ total_warnings (Tally 1 1 [Scenario.users_md])
       = list_sum (map (fun r => List.length (r_warnings r)) results)
    /\ failed_files (Tally 1 1 [Scenario.users_md])
       = map fst (filter (fun dr => negb (success (snd dr)))
                         (combine [Scenario.users_md; Scenario.clean_md]
                                  results))
    /\ List.length (failed_files (Tally 1 1 [Scenario.users_md]))
       <= total_errors (Tally 1 1 [Scenario.users_md]).
Proof.
  apply (@run_tallies Scenario.root Scenario.disk Scenario.today
           [Scenario.users_md; Scenario.clean_md]
           (Validator [] [] []) (Tally 1 1 [Scenario.users_md])).
  vm_compute; reflexivity.
Defined.

(** ** The stamp check, in general *)

(** What [strptime] returns for a text of the shape dddd-dd-dd is the
    date its digits read, and that date is a calendar date. *)
Lemma strptime_fields (text : string) (lu : Date.datetime) :
  iso_shape text = true -> Date.strptime text = Ok lu ->
  lu = Date.midnight (date_of_text text)
  /\ Date.valid (date_of_text text) = true.
Proof.
  intros Hshape. unfold Date.strptime.
  destruct (match_at true Date.format_regex None (Str.chars text) 0)
    as [m|] eqn:Em; [|discriminate].
  destruct (negb _) eqn:El; [discriminate|].
  apply negb_false_iff, Nat.eqb_eq in El.
  apply match_at_sound in Em; destruct Em as (st' & M & C & T & _).
  assert (R : rest st' = []).
  { apply (f_equal (@List.length ascii)) in T.
    rewrite length_app, length_chars in T.
    destruct (rest st'); [reflexivity | simpl in T; lia]. }
  unfold Date.format_regex in M.
  inversion M as [| | |? ? ? s1 ? M1 M'| | | | | |]; subst; clear M.
  inversion M' as [| | |? ? ? s2 ? M2 M''| | | | | |]; subst; clear M'.
  inversion M'' as [| | |? ? ? s3 ? M3 M'| | | | | |]; subst; clear M''.
  inversion M' as [| | |? ? ? s4 ? M4 M5| | | | | |]; subst; clear M'.
  destruct (matches_grp M1 eq_refl) as (wy & E1 & LY & C1).
  destruct (matches_chr M2) as (h1 & E2 & C2).
  destruct (matches_grp M3 eq_refl) as (wm & E3 & Lm & C3).
  destruct (matches_chr M4) as (h2 & E4 & C4).
  destruct (matches_grp M5 eq_refl) as (wd & E5 & Ld & C5).
  simpl in E1, C1. rewrite C2, C1 in C3. rewrite C4, C3 in C5.
  rewrite R, app_nil_r in E5. rewrite E5 in E4. rewrite E4 in E3.
  rewrite E3 in E2. rewrite E2 in E1. clear E2 E3 E4 E5.
  unfold group, cap. rewrite C, C5. cbn [lookup Nat.eqb].
  apply lang_length_Y in LY; destruct LY as (y1 & y2 & y3 & y4 & -> & DY).
  unfold iso_shape in Hshape. unfold date_of_text. rewrite E1 in *.
  assert (Hm := lang_m_d (or_introl Lm)).
  assert (Hd := lang_m_d (or_intror Ld)).
  destruct Hm as [[m1 ->]|[m1 [m2 ->]]]; destruct Hd as [[d1 ->]|[d1 [d2 ->]]];
    cbn [app] in Hshape; try discriminate Hshape.
  cbn [app].
  destruct (Date.valid _) eqn:V; [|discriminate].
  intros H; injection H as <-. split; reflexivity.
Qed.

(** X4: with a stamp that parses and whose year is 1000 or later, the
    check warns exactly when the stamp is more than 180 calendar days
    before today, whatever the time of day; the warning carries the number
    of days and the date as written; a stamp of today or of a day to come
    never warns. *)
Theorem stamp_age_rule (now : Date.datetime) (doc_path : path)
  (content text : string) (last_updated : Date.datetime) (v : validator) :
  Date.valid_datetime now = true ->
  find_stamp stamp_patterns content = Some text ->
  Date.strptime text = Ok last_updated ->
  (1000 <= Date.year (date_of_text text))%Z ->
  _check_last_updated now doc_path content v
  = Ok (if (180 <? Date.toordinal (Date.dt_date now)
                   - Date.toordinal (date_of_text text))%Z
        then warnings_append
               ("Document hasn't been updated in "
                +++ Str.of_Z (Date.toordinal (Date.dt_date now)
                              - Date.toordinal (date_of_text text))
                +++ " days (since " +++ text +++ ")") v
        else v)
  /\ ((Date.toordinal (Date.dt_date now)
       <= Date.toordinal (date_of_text text))%Z ->
      _check_last_updated now doc_path content v = Ok v).
Proof.
  intros V F P _.
  pose proof (delta_days_midnight now last_updated V (strptime_midnight _ P))
    as D.
  pose proof (strptime_iso text (find_stamp_shape _ F) P) as S.
  destruct (strptime_fields text (find_stamp_shape _ F) P) as [E _].
  assert (G : _check_last_updated now doc_path content v
    = Ok (if (180 <? Date.toordinal (Date.dt_date now)
                     - Date.toordinal (date_of_text text))%Z
          then warnings_append
                 ("Document hasn't been updated in "
                  +++ Str.of_Z (Date.toordinal (Date.dt_date now)
                                - Date.toordinal (date_of_text text))
                  +++ " days (since " +++ text +++ ")") v
          else v)).
  { unfold _check_last_updated; rewrite F, P; cbn [bind].
    rewrite D. unfold stale_message. rewrite S.
    rewrite E. cbn [Date.dt_date Date.midnight].
    destruct (180 <? _)%Z; reflexivity. }
  split; [exact G|].
  intros H. rewrite G.
  destruct (180 <? _)%Z eqn:L; [|reflexivity].
  apply Z.ltb_lt in L. lia.
Qed.

Lemma stamp_age_rule_witness :
  _check_last_updated Scenario.today ["proj"; "a.md"]
    "Updated: 2023-06-30" init
  = Ok (Validator []
          ["Document hasn't been updated in 366 days (since 2023-06-30)"] [])
  /\ _check_last_updated Scenario.today ["proj"; "a.md"]
       "Updated: 2031-01-01" init
     = Ok init.
Proof.
  split.
  - apply (@stamp_age_rule Scenario.today ["proj"; "a.md"]
             "Updated: 2023-06-30" "2023-06-30"
             (Date.midnight (Date.MkDate 2023 6 30)) init);
      vm_compute; try reflexivity; discriminate.
  - apply (@stamp_age_rule Scenario.today ["proj"; "a.md"]
             "Updated: 2031-01-01" "2031-01-01"
             (Date.midnight (Date.MkDate 2031 1 1)) init);
      vm_compute; try reflexivity; discriminate.
Defined.

(** X5: a stamp of the shape dddd-dd-dd that names no calendar date (a
    month 00 or above 12, a day 00 or beyond the length of the month, the
    year 0000) makes the stamp check raise, for any document and any day;
    a stamp with which the check returns is a calendar date. *)
Theorem invalid_stamp_raises (now : Date.datetime) (doc_path : path)
  (content text : string) (v : validator) :
  find_stamp stamp_patterns content = Some text ->
  (Date.valid (date_of_text text) = false ->
   exists e, _check_last_updated now doc_path content v = Raise e)
  /\ (forall v', _check_last_updated now doc_path content v = Ok v' ->
        Date.valid (date_of_text text) = true).
Proof.
  intros F.
  assert (G : forall lu, Date.strptime text = Ok lu ->
                Date.valid (date_of_text text) = true).
  { intros lu P.
    exact (proj2 (strptime_fields text (find_stamp_shape _ F) P)). }
  unfold _check_last_updated; rewrite F.
  destruct (Date.strptime text) as [lu|e]; cbn [bind].
  - split; [|intros _ _; exact (G lu eq_refl)].
    intros N. rewrite (G lu eq_refl) in N; discriminate.
  - split; [intros _; exists e; reflexivity | discriminate].
Qed.

Lemma invalid_stamp_raises_witness :
  exists e,
    _check_last_updated Scenario.today Scenario.baddate_md
      "Last Updated: 2023-02-29" init = Raise e.
Proof.
  apply (@invalid_stamp_raises Scenario.today Scenario.baddate_md
           "Last Updated: 2023-02-29" "2023-02-29" init);
    vm_compute; reflexivity.
Defined.

(** ** Links *)



Lemma is_prefix_app (r x : path) : is_prefix r (r ++ x) = true.
Proof.
  induction r as [|a r IH]; simpl; [reflexivity|].
  rewrite String.eqb_refl; exact IH.
Qed.



















(** ** Code references and TODO markers *)

Lemma fold_left_warnings (A : Type) (f : validator -> A -> validator)
  (g : A -> list string) :
  (forall v a, f v a = extend [] (g a) v) ->
  forall l v, fold_left f l v = extend [] (flat_map g l) v.
Proof.
  intros H l v.
  rewrite (fold_extend f (fun a => (@nil string, g a))) by (intros; apply H).
  simpl. rewrite flat_map_nil. reflexivity.
Qed.

Lemma code_refs_warnings (project_root : path) (disk : FS.fs)
  (content : string) :
  warnings (_check_code_file_references project_root disk content init)
  = flat_map
      (fun pat =>
         flat_map (fun m => warnings (check_file_ref project_root disk init m))
                  (findall false pat content))
      file_patterns.
Proof.
  unfold _check_code_file_references.
  rewrite (fold_left_warnings
             (fun v pattern =>
                fold_left (check_file_ref project_root disk)
                          (findall false pattern content) v)
             (fun pat =>
                flat_map
                  (fun m => warnings (check_file_ref project_root disk init m))
                  (findall false pat content))).
  - reflexivity.
  - intros v pat. apply fold_left_warnings.
    intros v0 m; apply check_file_ref_extend.
Qed.

Lemma replace_char_lacks (a b : ascii) (s : string) :
  a <> b -> lacks a (Str.replace_char a b s) = true.
Proof.
  intros N. unfold lacks, Str.replace_char. rewrite chars_of_chars.
  induction (Str.chars s) as [|c l IH]; [reflexivity|].
  cbn [map forallb]. rewrite IH, andb_true_r.
  destruct (Ascii.eqb_spec c a) as [->|Nc].
  - apply negb_true_iff, Ascii.eqb_neq. intros E; apply N; symmetry; exact E.
  - apply negb_true_iff, Ascii.eqb_neq; exact Nc.
Qed.

(** X8: every warning of the code-reference check names a path that does
    not exist under the project root, holds none of the placeholder words
    (example, your-, xxx, ...) in any letter case, and has no backslash
    left; the check never warns about a file that exists. *)
Theorem code_ref_warnings_sound (project_root : path) (disk : FS.fs)
  (content w : string) :
  In w (warnings (_check_code_file_references project_root disk content init))
  ->
  exists file_ref,
    w = "Referenced file may not exist: " +++ file_ref
    /\ FS.exists_ disk (joinpath project_root file_ref) = false
    /\ (forall placeholder, In placeholder placeholders ->
          Str.contains placeholder (Str.lower file_ref) = false)
    /\ lacks "\" file_ref = true.
Proof.
  rewrite code_refs_warnings. intros H.
  apply in_flat_map in H; destruct H as (pat & _ & H).
  apply in_flat_map in H; destruct H as (m & _ & H).
  unfold check_file_ref in H.
  destruct (existsb _ placeholders) eqn:Ex; [destruct H|].
  destruct (negb _) eqn:En; [|destruct H].
  destruct H as [<-|[]].
  exists (Str.replace_char "\" "/" (group 1 m)).
  split; [reflexivity|]. split; [apply negb_true_iff; exact En|].
  split; [|apply replace_char_lacks; discriminate].
  intros ph Hph.
  destruct (Str.contains ph _) eqn:C; [|reflexivity].
  assert (X : existsb
                (fun placeholder =>
                   Str.contains placeholder
                     (Str.lower (Str.replace_char "\" "/" (group 1 m))))
                placeholders = true)
    by (apply existsb_exists; exists ph; split; assumption).
  rewrite X in Ex; discriminate.
Qed.

Lemma code_ref_warnings_sound_witness :
  exists file_ref,
    "Referenced file may not exist: src/foo.ts"
    = "Referenced file may not exist: " +++ file_ref
    /\ FS.exists_ Scenario.disk (joinpath Scenario.root file_ref) = false
    /\ (forall placeholder, In placeholder placeholders ->
          Str.contains placeholder (Str.lower file_ref) = false)
    /\ lacks "\" file_ref = true.
Proof.
  apply (@code_ref_warnings_sound Scenario.root Scenario.disk
           "see `src\foo.ts:3` and `src/Example.ts`"
           "Referenced file may not exist: src/foo.ts").
  vm_compute. left; reflexivity.
Defined.

Lemma findall_from_in (ic : bool) (r : regex) (m : mobj) :
  forall s p pos skip,
    In m (findall_from ic r p s pos skip) ->
    exists p' s' pos', match_at ic r p' s' pos' = Some m.
Proof.
  induction s as [|c s IH]; intros p pos skip H.
  - destruct skip; simpl in H; [|destruct H].
    destruct (match_at ic r p [] pos) as [m'|] eqn:E; [|destruct H].
    destruct H as [<-|[]]. exists p, [], pos; exact E.
  - destruct skip; cbn [findall_from] in H; [|eapply IH; exact H].
    destruct (match_at ic r p (c :: s) pos) as [m'|] eqn:E;
      [|eapply IH; exact H].
    destruct H as [<-|H]; [exists p, (c :: s), pos; exact E|].
    eapply IH; exact H.
Qed.

Lemma length_of_chars (l : list ascii) :
  String.length (Str.of_chars l) = List.length l.
Proof. rewrite <- length_chars, chars_of_chars. reflexivity. Qed.

Lemma length_append (a b : string) :
  String.length (a +++ b) = String.length a + String.length b.
Proof. rewrite <- !length_chars, chars_append, length_app. reflexivity. Qed.

(** What a match of the TODO pattern captures. *)
Lemma todo_captures (a b : mstate) :
  matches false todo_pattern a b ->
  exists marker w2,
    In marker ["TODO"; "FIXME"; "XXX"; "HACK"]
    /\ w2 <> [] /\ forallb (fun c => negb (Ascii.eqb c Char.newline)) w2 = true
    /\ caps b = (2, w2) :: (1, Str.chars marker) :: caps a.
Proof.
  unfold todo_pattern; intros M.
  inversion M as [| | |? ? ? s1 ? M1 M'| | | | | |]; subst; clear M.
  inversion M' as [| | |? ? ? s2 ? M2 M''| | | | | |]; subst; clear M'.
  inversion M'' as [| | |? ? ? s3 ? M3 M4| | | | | |]; subst; clear M''.
  destruct (matches_grp M1 eq_refl) as (w1 & _ & L1 & C1).
  destruct (matches_chr M2) as (h & _ & C2).
  pose proof (matches_group_free M3 eq_refl) as C3.
  destruct (matches_grp M4 eq_refl) as (w2 & _ & L2 & C4).
  apply (lang_alts ["TODO"; "FIXME"; "XXX"; "HACK"]) in L1;
    destruct L1 as (marker & Hm & ->).
  apply lang_plus_cls in L2; destruct L2 as [N2 F2].
  exists marker, w2. rewrite C4, C3, C2, C1. repeat split; assumption.
Qed.

(** X9: every warning of the TODO scan is [Found], one of the four
    markers, and a description that is not empty, has no line break and is
    cut at 50 characters before the dots; so no such warning is longer
    than 66 characters. *)
Theorem todo_warnings_bounded (content w : string) :
  In w (warnings (_check_todo_markers content init)) ->
  exists marker description,
    In marker ["TODO"; "FIXME"; "XXX"; "HACK"]
    /\ w = "Found " +++ marker +++ ": " +++ description +++ "..."
    /\ 1 <= String.length description <= 50
    /\ lacks Char.newline description = true
    /\ String.length w <= 66.
Proof.
  unfold _check_todo_markers.
  rewrite (fold_left_warnings
             (fun v m =>
                warnings_append
                  ("Found " +++ group 1 m +++ ": "
                   +++ Str.take 50 (group 2 m) +++ "...") v)
             (fun m => ["Found " +++ group 1 m +++ ": "
                        +++ Str.take 50 (group 2 m) +++ "..."]))
    by (intros v m; unfold extend, warnings_append; simpl;
        rewrite app_nil_r; reflexivity).
  cbn [warnings extend init app]. intros H.
  apply in_flat_map in H; destruct H as (m & Hm & [<-|[]]).
  apply findall_from_in in Hm; destruct Hm as (p' & s' & pos' & E).
  apply match_at_sound in E; destruct E as (st' & M & C & _).
  apply todo_captures in M; destruct M as (marker & w2 & Hmk & N2 & F2 & Cs).
  simpl in Cs. unfold group, cap. rewrite C, Cs. cbn [lookup Nat.eqb].
  rewrite of_chars_chars.
  exists marker, (Str.take 50 (Str.of_chars w2)).
  assert (L1 : 1 <= String.length (Str.take 50 (Str.of_chars w2))).
  { unfold Str.take. rewrite length_of_chars, chars_of_chars.
    destruct w2 as [|c w2]; [contradiction|]. simpl. lia. }
  assert (L2 : String.length (Str.take 50 (Str.of_chars w2)) <= 50).
  { unfold Str.take. rewrite length_of_chars. apply firstn_le_length. }
  split; [exact Hmk|]. split; [reflexivity|]. split; [lia|]. split.
  - unfold lacks, Str.take. rewrite !chars_of_chars.
    rewrite <- (firstn_skipn 50 w2) in F2. rewrite forallb_app in F2.
    apply andb_true_iff in F2; destruct F2 as [F2 _]. exact F2.
  - rewrite !length_append.
    assert (Lm : String.length marker <= 5).
    { simpl in Hmk.
      repeat (destruct Hmk as [<-|Hmk]; [simpl; lia|]). destruct Hmk. }
    simpl String.length. lia.
Qed.

Lemma todo_warnings_bounded_witness :
  exists marker description,
    In marker ["TODO"; "FIXME"; "XXX"; "HACK"]
    /\ "Found FIXME: the rest of the line..."
       = "Found " +++ marker +++ ": " +++ description +++ "..."
    /\ 1 <= String.length description <= 50
    /\ lacks Char.newline description = true
    /\ String.length "Found FIXME: the rest of the line..." <= 66.
Proof.
  apply (@todo_warnings_bounded
           ("text FIXME:   the rest of the line" +++ Scenario.nl +++ "more")
           "Found FIXME: the rest of the line...").
  vm_compute. left; reflexivity.
Defined.

(** ** Headings and required sections *)

Lemma lower_hash (c : ascii) : Char.lower c = "#"%char -> c = "#"%char.
Proof.
  destruct c as [[] [] [] [] [] [] [] []]; intros H;
    try reflexivity; vm_compute in H; discriminate H.
Qed.

Lemma eqb_ic_hash (c : ascii) :
  Char.eqb_ic true "#" c = Ascii.eqb "#" c.
Proof.
  unfold Char.eqb_ic. change (Char.lower "#") with "#"%char.
  destruct (Ascii.eqb_spec "#" (Char.lower c)) as [E|N];
    destruct (Ascii.eqb_spec "#" c) as [E'|N']; try reflexivity.
  - exfalso; apply N'. symmetry; apply lower_hash; symmetry; exact E.
  - exfalso; apply N. rewrite <- E'. reflexivity.
Qed.

Lemma lang_star_chr (ic : bool) (a : ascii) (w : list ascii) :
  lang ic (Star (Chr a)) w -> forallb (Char.eqb_ic ic a) w = true.
Proof.
  intros H; remember (Star (Chr a)) as r eqn:Er.
  induction H as [| | | | | | |r w1 w2 H1 _ H2 IH2| |]; try discriminate.
  - reflexivity.
  - injection Er as ->. specialize (IH2 eq_refl).
    inversion H1; subst. simpl. rewrite IH2, andb_true_r. assumption.
Qed.

Lemma lang_lit_ic (s : string) (w : list ascii) :
  lang true (Lit s) w -> map Char.lower w = map Char.lower (Str.chars s).
Proof.
  revert w; induction s as [|c s IH]; intros w H; simpl in H.
  - inversion H; reflexivity.
  - inversion H as [| | |r1 r2 w1 w2 H1 H2| | | | | |]; subst.
    inversion H1 as [|c0 c' Hc| | | | | | | |]; subst.
    unfold Char.eqb_ic in Hc. apply Ascii.eqb_eq in Hc.
    cbn [app map Str.chars list_ascii_of_string]. rewrite <- Hc. f_equal.
    apply IH; exact H2.
Qed.

(** Runs of one-character patterns, and a literal in any letter case, as
    matches between states. *)
Lemma matches_star_run (ic : bool) (r : regex) (q : ascii -> bool)
  (t : list ascii) (cs : list (nat * list ascii)) :
  (forall pv c s, q c = true ->
     matches ic r (MState pv (c :: s) cs) (MState (Some c) s cs)) ->
  forall w pv, forallb q w = true ->
    matches ic (Star r) (MState pv (w ++ t) cs)
      (MState (prev_after pv w) t cs).
Proof.
  intros Hr; induction w as [|c w IH]; intros pv Hw; simpl in *.
  - apply M_Star0.
  - apply andb_true_iff in Hw; destruct Hw as [Hc Hw].
    apply M_StarS with (b := MState (Some c) (w ++ t) cs);
      [apply Hr; exact Hc | exact (IH (Some c) Hw)].
Qed.

Lemma matches_plus_run (ic : bool) (r : regex) (q : ascii -> bool)
  (t : list ascii) (cs : list (nat * list ascii)) :
  (forall pv c s, q c = true ->
     matches ic r (MState pv (c :: s) cs) (MState (Some c) s cs)) ->
  forall w pv, w <> [] -> forallb q w = true ->
    matches ic (Plus r) (MState pv (w ++ t) cs)
      (MState (prev_after pv w) t cs).
Proof.
  intros Hr w pv N Hw. destruct w as [|c w]; [contradiction|].
  simpl in Hw. apply andb_true_iff in Hw; destruct Hw as [Hc Hw].
  unfold Plus. cbn [app].
  apply M_Cat with (b := MState (Some c) (w ++ t) cs); [apply Hr; exact Hc|].
  exact (@matches_star_run ic r q t cs Hr w (Some c) Hw).
Qed.

Lemma matches_chr_step (ic : bool) (a : ascii) (cs : list (nat * list ascii))
  (pv : option ascii) (c : ascii) (s : list ascii) :
  Char.eqb_ic ic a c = true ->
  matches ic (Chr a) (MState pv (c :: s) cs) (MState (Some c) s cs).
Proof.
  intros H.
  exact (@M_Chr ic a c s (MState pv (c :: s) cs) eq_refl H).
Qed.

Lemma matches_cls_step (ic : bool) (p : ascii -> bool)
  (cs : list (nat * list ascii)) (pv : option ascii) (c : ascii)
  (s : list ascii) :
  p c = true ->
  matches ic (Cls p) (MState pv (c :: s) cs) (MState (Some c) s cs).
Proof.
  intros H.
  exact (@M_Cls ic p c s (MState pv (c :: s) cs) eq_refl H).
Qed.

Lemma matches_lit_ic (section : string) (t : list ascii)
  (cs : list (nat * list ascii)) :
  forall name pv,
    map Char.lower name = map Char.lower (Str.chars section) ->
    matches true (Lit section) (MState pv (name ++ t) cs)
      (MState (prev_after pv name) t cs).
Proof.
  induction section as [|c s IH]; intros name pv E.
  - destruct name; [apply M_Eps | discriminate].
  - destruct name as [|d name]; [discriminate|].
    cbn [map Str.chars list_ascii_of_string] in E. injection E as Ec E.
    cbn [Lit app].
    apply M_Cat with (b := MState (Some d) (name ++ t) cs).
    + apply matches_chr_step. unfold Char.eqb_ic. rewrite Ec.
      apply Ascii.eqb_refl.
    + exact (IH name (Some d) E).
Qed.

(** X10: the section check finds a heading exactly where the text has, at
    the start of a line, one or more [#], then one or more white-space
    characters (a line break counts), then the section name in any letter
    case; the level of the heading and what follows the name play no
    part. *)
Theorem heading_recognised (section content : string) :
  has_heading section content = true
  <-> heading_shape section (Str.chars content).
Proof.
  split.
  - unfold has_heading.
    destruct (search true (heading_pattern section) content) as [m|] eqn:E;
      [intros _ | discriminate].
    apply search_sound in E.
    destruct E as (st' & (l1 & l2 & Ec & M) & _).
    unfold heading_pattern in M.
    inversion M as [| | |? ? ? s1 ? M0 M'| | | | | |]; subst; clear M.
    inversion M0 as [| | | | | | | | |? Hs]; subst; clear M0.
    inversion M' as [| | |? ? ? s2 ? M1 M''| | | | | |]; subst; clear M'.
    inversion M'' as [| | |? ? ? s3 ? M2 M3| | | | | |]; subst; clear M''.
    destruct (matches_lang M1) as (w1 & E1 & L1).
    destruct (matches_lang M2) as (w2 & E2 & L2).
    destruct (matches_lang M3) as (w3 & E3 & L3).
    simpl in E1. rewrite E2, E3 in E1.
    exists l1, w1, w2, w3, (rest st').
    split; [rewrite Ec, E1; reflexivity|].
    split; [exact Hs|].
    unfold Plus in L1, L2.
    inversion L1 as [| | |? ? a1 b1 La Lb| | | | | |]; subst; clear L1.
    inversion La as [|? ? Hc| | | | | | | |]; subst; clear La.
    apply lang_star_chr in Lb.
    inversion L2 as [| | |? ? a2 b2 La Lb2| | | | | |]; subst; clear L2.
    inversion La as [| |? ? Hc2| | | | | | |]; subst; clear La.
    apply lang_star_cls in Lb2.
    split; [discriminate|].
    split.
    { cbn [app forallb]. rewrite <- eqb_ic_hash, Hc.
      rewrite (forallb_impl (Char.eqb_ic true "#") (Ascii.eqb "#") b1);
        [reflexivity| |exact Lb].
      intros c; rewrite eqb_ic_hash; auto. }
    split; [discriminate|].
    split; [cbn [app forallb]; rewrite Hc2, Lb2; reflexivity|].
    apply lang_lit_ic; exact L3.
  - intros (pre & hashes & blanks & name & post & E & Hs & Nh & Fh & Nb & Fb
            & En).
    apply has_heading_true.
    exists (MState (prev_after (prev_after (prev_after (prev_after None pre)
                                              hashes) blanks) name) post []).
    exists pre, (hashes ++ blanks ++ name ++ post). split; [exact E|].
    unfold heading_pattern.
    eapply M_Cat; [apply M_Bol; exact Hs|].
    eapply M_Cat.
    { apply (@matches_plus_run true (Chr "#") (Ascii.eqb "#"));
        [|exact Nh | exact Fh].
      intros pv c s Hc. apply matches_chr_step.
      rewrite eqb_ic_hash; exact Hc. }
    eapply M_Cat.
    { apply (@matches_plus_run true space Char.is_space);
        [|exact Nb | exact Fb].
      intros pv c s Hc. apply matches_cls_step; exact Hc. }
    apply matches_lit_ic; exact En.
Qed.

(** X11: for a file that is not a template, the section check reports the
    required sections that have no heading, each once, in the order of
    the profile, and so at most three errors; for a template, and for a
    name that matches no profile, it reports nothing. *)
Theorem section_errors_are_missing_sections (doc_path : path)
  (content : string) :
  errors (_check_required_sections doc_path content init)
  = (if is_template doc_path then []
     else map (fun section => "Missing required section: " +++ section)
              (filter (fun section => negb (has_heading section content))
                      (required_sections (name doc_path))))
  /\ List.length (errors (_check_required_sections doc_path content init))
     <= 3
  /\ (required_sections (name doc_path) = [] ->
      _check_required_sections doc_path content init = init).
Proof.
  assert (E : errors (_check_required_sections doc_path content init)
    = (if is_template doc_path then []
       else map (fun section => "Missing required section: " +++ section)
                (filter (fun section => negb (has_heading section content))
                        (required_sections (name doc_path))))).
  { unfold _check_required_sections.
    destruct (is_template doc_path); [reflexivity|].
    rewrite (fold_extend
               (fun v section =>
                  if negb (has_heading section content)
                  then errors_append
                         ("Missing required section: " +++ section) v
                  else v)
               (fun section =>
                  (if negb (has_heading section content)
                   then ["Missing required section: " +++ section] else [],
                   @nil string))).
    - cbn [errors extend init app fst].
      induction (required_sections (name doc_path)) as [|a l IH];
        [reflexivity|].
      cbn [flat_map filter]. rewrite IH.
      destruct (negb (has_heading a content)); reflexivity.
    - intros v a; cbn [fst snd]. destruct (negb _).
      + unfold extend, errors_append; simpl. rewrite app_nil_r. reflexivity.
      + symmetry; apply extend_nil. }
  split; [exact E|]. split.
  - rewrite E. destruct (is_template doc_path); [simpl; lia|].
    rewrite length_map.
    eapply Nat.le_trans; [apply filter_length_le|].
    unfold required_sections.
    destruct (_ || _); [simpl; lia|].
    destruct (_ || _); [simpl; lia|].
    destruct (_ || _); simpl; lia.
  - intros R. unfold _check_required_sections. rewrite R.
    destruct (is_template doc_path); reflexivity.
Qed.

Lemma lower_lower (c : ascii) : Char.lower (Char.lower c) = Char.lower c.
Proof. destruct c as [[] [] [] [] [] [] [] []]; vm_compute; reflexivity. Qed.

Lemma str_lower_chars (s : string) :
  Str.chars (Str.lower s) = map Char.lower (Str.chars s).
Proof. unfold Str.lower; apply chars_of_chars. Qed.

Lemma prefixb_lower (p s : list ascii) :
  Str.prefixb p s = true ->
  Str.prefixb (map Char.lower p) (map Char.lower s) = true.
Proof.
  revert s; induction p as [|a p IH]; intros [|b s] H; simpl in *;
    try reflexivity; try discriminate.
  apply andb_true_iff in H; destruct H as [Hab H].
  apply Ascii.eqb_eq in Hab; subst. rewrite Ascii.eqb_refl. simpl.
  apply IH; exact H.
Qed.

Lemma infixb_lower (p s : list ascii) :
  Str.infixb p s = true ->
  Str.infixb (map Char.lower p) (map Char.lower s) = true.
Proof.
  induction s as [|b s IH]; cbn [Str.infixb map]; intros H.
  - rewrite orb_false_r in *. apply (prefixb_lower p []); exact H.
  - apply orb_true_iff in H; destruct H as [H|H].
    + pose proof (prefixb_lower p (b :: s) H) as X. cbn [map] in X.
      rewrite X. reflexivity.
    + rewrite (IH H). apply orb_true_r.
Qed.

Lemma prefixb_infixb (p s : list ascii) :
  Str.prefixb p s = true -> Str.infixb p s = true.
Proof. intros H; destruct s; simpl in *; rewrite H; reflexivity. Qed.

(** A word in capitals in the name is the same word in small letters in
    the lowered name. *)
Lemma contains_upper (up low nm : string) :
  map Char.lower (Str.chars up) = Str.chars low ->
  Str.contains up nm = true -> Str.contains low (Str.lower nm) = true.
Proof.
  unfold Str.contains; intros E H.
  rewrite str_lower_chars, <- E. apply infixb_lower; exact H.
Qed.

(** X12: the profile of a document depends on its file name in small
    letters only: the tests on RUNBOOK, ADR and API in capitals add
    nothing to the three tests, in this order, for runbook, adr and api
    anywhere in the lowered name. *)
Theorem profile_from_lowered_name (nm : string) :
  required_sections nm
  = (if Str.contains "runbook" (Str.lower nm)
     then ["Overview"; "Common Issues"; "Monitoring"]
     else if Str.contains "adr" (Str.lower nm)
     then ["Context"; "Decision"; "Consequences"]
     else if Str.contains "api" (Str.lower nm)
     then ["Overview"; "Endpoints"; "Error Handling"]
     else [])
  /\ required_sections (Str.lower nm) = required_sections nm.
Proof.
  assert (R : forall up low s,
             map Char.lower (Str.chars up) = Str.chars low ->
             Str.contains low (Str.lower s) || Str.contains up s
             = Str.contains low (Str.lower s)).
  { intros up low s E.
    destruct (Str.contains up s) eqn:C; [|apply orb_false_r].
    rewrite (contains_upper up low s E C). reflexivity. }
  assert (A : forall s,
             Str.contains "adr" (Str.lower s) || Str.startswith "ADR" s
             = Str.contains "adr" (Str.lower s)).
  { intros s. destruct (Str.startswith "ADR" s) eqn:C; [|apply orb_false_r].
    rewrite (contains_upper "ADR" "adr" s eq_refl
               (prefixb_infixb _ _ C)). reflexivity. }
  assert (F : forall s,
    required_sections s
    = (if Str.contains "runbook" (Str.lower s)
       then ["Overview"; "Common Issues"; "Monitoring"]
       else if Str.contains "adr" (Str.lower s)
       then ["Context"; "Decision"; "Consequences"]
       else if Str.contains "api" (Str.lower s)
       then ["Overview"; "Endpoints"; "Error Handling"]
       else [])).
  { intros s. unfold required_sections.
    rewrite (R "RUNBOOK" "runbook" s eq_refl), A,
      (R "API" "api" s eq_refl). reflexivity. }
  split; [apply F|].
  rewrite (F (Str.lower nm)), (F nm).
  assert (L : Str.lower (Str.lower nm) = Str.lower nm).
  { unfold Str.lower at 1. rewrite str_lower_chars, map_map.
    unfold Str.lower. f_equal. apply map_ext. intros c; apply lower_lower. }
  rewrite L. reflexivity.
Qed.

(** ** Discovery of the documents *)

Lemma path_leb_total (p q : path) :
  path_leb p q = true \/ path_leb q p = true.
Proof.
  revert q; induction p as [|a p IH]; intros [|b q]; simpl; auto.
  rewrite (String.eqb_sym b a).
  destruct (String.eqb a b); [apply IH | apply String.leb_total].
Qed.

Lemma insert_sorted_perm (p : path) (l : list path) :
  Permutation (insert_sorted p l) (p :: l).
Proof.
  induction l as [|q l IH]; simpl; [apply Permutation_refl|].
  destruct (path_leb p q); [apply Permutation_refl|].
  eapply Permutation_trans; [apply perm_skip; exact IH | apply perm_swap].
Qed.

Lemma sorted_perm (l : list path) : Permutation (sorted l) l.
Proof.
  induction l as [|p l IH]; simpl; [constructor|].
  eapply Permutation_trans; [apply insert_sorted_perm|].
  apply perm_skip; exact IH.
Qed.

Lemma insert_sorted_sorted (p : path) (l : list path) :
  Sorted (fun a b => path_leb a b = true) l ->
  Sorted (fun a b => path_leb a b = true) (insert_sorted p l).
Proof.
  induction 1 as [|q l Hs IH Hd]; simpl.
  - repeat constructor.
  - destruct (path_leb p q) eqn:E.
    + constructor; [constructor; assumption | constructor; exact E].
    + constructor; [exact IH|].
      assert (Q : path_leb q p = true)
        by (destruct (path_leb_total p q); congruence).
      destruct l as [|r l]; simpl; [constructor; exact Q|].
      destruct (path_leb p r); constructor; [exact Q|].
      inversion Hd; assumption.
Qed.

Lemma sorted_sorted (l : list path) :
  Sorted (fun a b => path_leb a b = true) (sorted l).
Proof.
  induction l as [|p l IH]; simpl; [constructor|].
  apply insert_sorted_sorted; exact IH.
Qed.

Lemma find_all_docs_eq (project_root : path) (disk : FS.fs)
  (glob : path -> string -> list path) :
  find_all_docs project_root disk glob
  = sorted
      (filter kept
         ((if FS.exists_ disk (project_root ++ ["docs"])
           then glob (project_root ++ ["docs"]) "**/*.md" else [])
          ++ (if FS.exists_ disk (project_root ++ ["skills"])
              then glob (project_root ++ ["skills"]) "**/*.md" else [])
          ++ glob project_root "*.md")).
Proof.
  unfold find_all_docs.
  change (joinpath project_root "docs") with (project_root ++ ["docs"]).
  change (joinpath project_root "skills") with (project_root ++ ["skills"]).
  cbv zeta.
  destruct (FS.exists_ disk (project_root ++ ["docs"]));
    destruct (FS.exists_ disk (project_root ++ ["skills"]));
    cbn [app]; rewrite ?app_nil_r, <- ?app_assoc; reflexivity.
Qed.

Lemma find_all_docs_members (project_root : path) (disk : FS.fs)
  (glob : path -> string -> list path) (f : path) :
  In f (find_all_docs project_root disk glob) ->
  In f ((if FS.exists_ disk (project_root ++ ["docs"])
         then glob (project_root ++ ["docs"]) "**/*.md" else [])
        ++ (if FS.exists_ disk (project_root ++ ["skills"])
            then glob (project_root ++ ["skills"]) "**/*.md" else [])
        ++ glob project_root "*.md")
  /\ Str.contains "node_modules" (to_string f) = false
  /\ Str.contains ".next" (to_string f) = false.
Proof.
  rewrite find_all_docs_eq. intros Hf.
  apply (Permutation_in f (sorted_perm _)) in Hf.
  apply filter_In in Hf; destruct Hf as [Hc Hk].
  unfold kept in Hk. apply andb_true_iff in Hk; destruct Hk as [K1 K2].
  apply negb_true_iff in K1, K2. repeat split; assumption.
Qed.

(** X13: whatever [glob] yields, the documents found are the candidates
    that pass the filter, each as often as it was yielded, in ascending
    order of their paths; no path among them has [node_modules] or
    [.next] anywhere in its text; and a directory [docs] or [skills] that
    does not exist contributes nothing. *)
Theorem find_all_docs_spec (project_root : path) (disk : FS.fs)
  (glob : path -> string -> list path) :
  let candidates :=
    (if FS.exists_ disk (project_root ++ ["docs"])
     then glob (project_root ++ ["docs"]) "**/*.md" else [])
    ++ (if FS.exists_ disk (project_root ++ ["skills"])
        then glob (project_root ++ ["skills"]) "**/*.md" else [])
    ++ glob project_root "*.md" in
  Permutation (find_all_docs project_root disk glob) (filter kept candidates)
  /\ Sorted (fun a b => path_leb a b = true)
            (find_all_docs project_root disk glob)
  /\ (forall f, In f (find_all_docs project_root disk glob) ->
        In f candidates
        /\ Str.contains "node_modules" (to_string f) = false
        /\ Str.contains ".next" (to_string f) = false).
Proof.
  intros candidates. split; [|split].
  - rewrite find_all_docs_eq. apply sorted_perm.
  - rewrite find_all_docs_eq. apply sorted_sorted.
  - intros f; apply find_all_docs_members.
Qed.

Lemma prefixb_app (p a b : list ascii) :
  Str.prefixb p a = true -> Str.prefixb p (a ++ b) = true.
Proof.
  revert a; induction p as [|c p IH]; intros [|d a] H; simpl in *;
    try reflexivity; try discriminate.
  apply andb_true_iff in H; destruct H as [H1 H2].
  rewrite H1. simpl. apply IH; exact H2.
Qed.

Lemma infixb_app (p a b : list ascii) :
  Str.infixb p a = true -> Str.infixb p (a ++ b) = true.
Proof.
  induction a as [|d a IH]; intros H.
  - simpl in H. rewrite orb_false_r in H.
    destruct p as [|c p]; [|discriminate].
    destruct b; reflexivity.
  - cbn [Str.infixb app] in *.
    apply orb_true_iff in H; destruct H as [H|H].
    + pose proof (prefixb_app p (d :: a) b H) as X. cbn [app] in X.
      rewrite X. reflexivity.
    + rewrite (IH H). apply orb_true_r.
Qed.

Lemma append_assoc (a b c : string) : (a +++ b) +++ c = a +++ b +++ c.
Proof. induction a as [|x a IH]; simpl; [reflexivity | rewrite IH; reflexivity]. Qed.

Lemma join_app (a b : list string) :
  a <> [] -> b <> [] ->
  Str.join "/" (a ++ b) = Str.join "/" a +++ "/" +++ Str.join "/" b.
Proof.
  intros Na Nb. induction a as [|x a IH]; [contradiction|].
  destruct a as [|y a].
  - destruct b as [|z b]; [contradiction|]. reflexivity.
  - change (Str.join "/" ((x :: y :: a) ++ b))
      with (x +++ "/" +++ Str.join "/" ((y :: a) ++ b)).
    rewrite IH by discriminate.
    change (Str.join "/" (x :: y :: a))
      with (x +++ "/" +++ Str.join "/" (y :: a)).
    rewrite !append_assoc. reflexivity.
Qed.

Lemma is_prefix_split (r p : path) :
  is_prefix r p = true -> exists x, p = r ++ x.
Proof.
  revert p; induction r as [|a r IH]; intros p H; simpl in H.
  - exists p; reflexivity.
  - destruct p as [|b p]; [discriminate|].
    apply andb_true_iff in H; destruct H as [E H].
    apply String.eqb_eq in E; subst.
    destruct (IH p H) as [x ->]. exists x; reflexivity.
Qed.

(** A word in the text of a directory is in the text of every path
    below it. *)
Lemma contains_below (word : string) (r p : path) :
  is_prefix r p = true ->
  Str.contains word (to_string r) = true ->
  Str.contains word (to_string p) = true.
Proof.
  intros H C. destruct (is_prefix_split r p H) as [x ->].
  destruct x as [|y x]; [rewrite app_nil_r; exact C|].
  destruct r as [|a r].
  - unfold Str.contains, to_string in *.
    change (Str.chars ("/" +++ Str.join "/" ([] ++ y :: x)))
      with (["/"%char] ++ Str.chars (Str.join "/" (y :: x))).
    apply infixb_app. exact C.
  - unfold Str.contains, to_string in *.
    rewrite join_app by discriminate.
    rewrite <- append_assoc, chars_append.
    apply infixb_app. exact C.
Qed.

(** X14: the filter looks at the whole text of a path, the project root
    included: when the path of the project root itself holds
    [node_modules] or [.next], and [glob] yields paths below the directory
    it is given, no document is found at all. *)
Theorem nothing_found_under_excluded_root (project_root : path)
  (disk : FS.fs) (glob : path -> string -> list path) :
  (forall d pattern f, In f (glob d pattern) -> is_prefix d f = true) ->
  Str.contains "node_modules" (to_string project_root) = true
  \/ Str.contains ".next" (to_string project_root) = true ->
  find_all_docs project_root disk glob = [].
Proof.
  intros G C.
  destruct (find_all_docs project_root disk glob) as [|f l] eqn:E;
    [reflexivity|].
  exfalso.
  pose proof (@find_all_docs_members project_root disk glob f) as H.
  rewrite E in H.
  destruct (H (or_introl eq_refl)) as (Hc & K1 & K2).
  assert (P : is_prefix project_root f = true).
  { rewrite !in_app_iff in Hc.
    assert (Sub : forall sub g, In g (glob (project_root ++ [sub]) "**/*.md")
                    -> is_prefix project_root g = true).
    { intros sub g Hg. apply G in Hg.
      destruct (is_prefix_split _ _ Hg) as [x ->].
      rewrite <- app_assoc. apply is_prefix_app. }
    destruct (FS.exists_ disk (project_root ++ ["docs"]));
      destruct (FS.exists_ disk (project_root ++ ["skills"]));
      destruct Hc as [Hc|[Hc|Hc]];
      try (eapply Sub; exact Hc); try (eapply G; exact Hc); destruct Hc. }
  destruct C as [C|C];
    pose proof (contains_below _ project_root f P C); congruence.
Qed.

Lemma nothing_found_under_excluded_root_witness :
  find_all_docs ["home"; "u"; "site.next"; "proj"] Scenario.disk
    (fun d _ => [d ++ ["README.md"]])
  = [].
Proof.
  apply nothing_found_under_excluded_root.
  - intros d pattern f [<-|[]]. apply is_prefix_app.
  - right. vm_compute. reflexivity.
Defined.

(** ** The command line *)

Lemma specific_file_skip (project_root : path) (keep : string -> bool) :
  (forall a, keep a = false -> Str.startswith "-" a = true) ->
  forall args acc,
    fold_left
      (fun specific_file arg =>
         if negb (String.eqb arg "--fix") && negb (Str.startswith "-" arg)
         then
           let f := parts arg in
           Some (if negb (Str.startswith "/" arg)
                 then project_root ++ f else f)
         else specific_file)
      (filter keep args) acc
    = fold_left
        (fun specific_file arg =>
           if negb (String.eqb arg "--fix") && negb (Str.startswith "-" arg)
           then
             let f := parts arg in
             Some (if negb (Str.startswith "/" arg)
                   then project_root ++ f else f)
           else specific_file)
        args acc.
Proof.
  intros K; induction args as [|a args IH]; intros acc; [reflexivity|].
  cbn [filter]. destruct (keep a) eqn:E; cbn [fold_left]; [apply IH|].
  rewrite (K a E). rewrite andb_false_r. apply IH.
Qed.

(** X15: arguments that start with a dash, [--fix] among them, change
    neither the documents that are validated nor the exit status: the run
    is the same with all of them removed. *)
Theorem options_change_nothing (project_root : path) (disk : FS.fs)
  (now : Date.datetime) (glob : path -> string -> list path)
  (argv0 : string) (args : list string) :
  doc_files_of project_root disk glob
    (argv0 :: filter (fun a => negb (String.eqb a "--fix")) args)
  = doc_files_of project_root disk glob (argv0 :: args)
  /\ doc_files_of project_root disk glob
       (argv0 :: filter (fun a => negb (Str.startswith "-" a)) args)
     = doc_files_of project_root disk glob (argv0 :: args)
  /\ exit_status_argv project_root disk now glob
       (argv0 :: filter (fun a => negb (Str.startswith "-" a)) args)
     = exit_status_argv project_root disk now glob (argv0 :: args).
Proof.
  assert (A : specific_file_of project_root
                (filter (fun a => negb (String.eqb a "--fix")) args)
              = specific_file_of project_root args).
  { apply specific_file_skip. intros a H.
    apply negb_false_iff, String.eqb_eq in H. subst; reflexivity. }
  assert (B : specific_file_of project_root
                (filter (fun a => negb (Str.startswith "-" a)) args)
              = specific_file_of project_root args).
  { apply specific_file_skip. intros a H.
    apply negb_false_iff in H; exact H. }
  unfold exit_status_argv, doc_files_of. cbn [tl]. rewrite A, B.
  repeat split; reflexivity.
Qed.

Lemma specific_file_flags (project_root : path) (flags : list string) :
  Forall (fun x => Str.startswith "-" x = true) flags ->
  forall acc,
    fold_left
      (fun specific_file arg =>
         if negb (String.eqb arg "--fix") && negb (Str.startswith "-" arg)
         then
           let f := parts arg in
           Some (if negb (Str.startswith "/" arg)
                 then project_root ++ f else f)
         else specific_file)
      flags acc
    = acc.
Proof.
  induction 1 as [|a flags Ha _ IH]; intros acc; [reflexivity|].
  cbn [fold_left]. rewrite Ha, andb_false_r. apply IH.
Qed.

(** X16: of the arguments that do not start with a dash, only the last
    is validated, taken relative to the project root unless it starts
    with [/]; with no such argument the documents are those that
    [find_all_docs] finds. *)
Theorem last_path_argument_wins (project_root : path) (disk : FS.fs)
  (glob : path -> string -> list path) (argv0 : string)
  (before after : list string) (a : string) :
  Forall (fun x => Str.startswith "-" x = true) after ->
  (Str.startswith "-" a = false ->
   doc_files_of project_root disk glob (argv0 :: before ++ a :: after)
   = [joinpath project_root a])
  /\ doc_files_of project_root disk glob (argv0 :: after)
     = find_all_docs project_root disk glob.
Proof.
  intros Ha. split.
  - intros Hd. unfold doc_files_of, specific_file_of. cbn [tl].
    rewrite fold_left_app. cbn [fold_left]. rewrite Hd.
    assert (Nf : String.eqb a "--fix" = false).
    { destruct (String.eqb_spec a "--fix") as [->|]; [discriminate Hd|].
      reflexivity. }
    rewrite Nf. cbn [negb andb]. rewrite specific_file_flags by exact Ha.
    unfold joinpath. destruct (Str.startswith "/" a); reflexivity.
  - unfold doc_files_of, specific_file_of. cbn [tl].
    rewrite specific_file_flags by exact Ha. reflexivity.
Qed.

Lemma last_path_argument_wins_witness :
  doc_files_of Scenario.root Scenario.disk (fun _ _ => [])
    ("validate_docs.py" :: ["docs/clean.md"; "--fix"]
     ++ "docs/api/users.md" :: ["--fix"; "-v"])
  = [Scenario.users_md]
  /\ doc_files_of Scenario.root Scenario.disk (fun _ _ => [])
       ("validate_docs.py" :: ["--fix"; "-v"])
     = find_all_docs Scenario.root Scenario.disk (fun _ _ => []).
Proof.
  destruct (@last_path_argument_wins Scenario.root Scenario.disk
              (fun _ _ => []) "validate_docs.py"
              ["docs/clean.md"; "--fix"] ["--fix"; "-v"]
              "docs/api/users.md") as [H1 H2].
  - repeat constructor.
  - split; [apply H1; reflexivity | exact H2].
Defined.

(** ** A single code reference *)

Lemma matches_lit (s : string) (t : list ascii)
  (cs : list (nat * list ascii)) (pv : option ascii) :
  matches false (Lit s) (MState pv (Str.chars s ++ t) cs)
    (MState (prev_after pv (Str.chars s)) t cs).
Proof.
  revert pv; induction s as [|c s IH]; intros pv.
  - apply M_Eps.
  - cbn [Lit Str.chars list_ascii_of_string app].
    apply M_Cat with (b := MState (Some c) (Str.chars s ++ t) cs).
    + apply matches_chr_step. apply Ascii.eqb_refl.
    + exact (IH (Some c)).
Qed.

Lemma matches_alts (ws : list string) (x : string) (t : list ascii)
  (cs : list (nat * list ascii)) (pv : option ascii) :
  In x ws ->
  matches false (alts ws) (MState pv (Str.chars x ++ t) cs)
    (MState (prev_after pv (Str.chars x)) t cs).
Proof.
  induction ws as [|y ws IH]; intros H; [destruct H|].
  cbn [alts]. destruct ws as [|z ws].
  - destruct H as [->|[]]. apply matches_lit.
  - destruct H as [->|H]; [apply M_AltL, matches_lit | apply M_AltR, IH, H].
Qed.













(** ** What the scans cannot miss, and what they leave alone *)

Lemma findall_from_nonempty (ic : bool) (r : regex) :
  star_ok r = true ->
  forall l1 l2 p pos st',
    matches ic r (MState (prev_after p l1) l2 []) st' ->
    findall_from ic r p (l1 ++ l2) pos 0 <> [].
Proof.
  intros W; induction l1 as [|c l1 IH]; intros l2 p pos st' M.
  - destruct (@match_at_complete ic r p l2 pos st' W M) as [m Em].
    destruct l2; simpl; rewrite Em; discriminate.
  - cbn [app findall_from].
    destruct (match_at ic r p (c :: l1 ++ l2) pos); [discriminate|].
    eapply IH; exact M.
Qed.

Lemma matches_grp_intro (ic : bool) (i : nat) (r : regex)
  (pv pv' : option ascii) (w t : list ascii) (cs : list (nat * list ascii)) :
  matches ic r (MState pv (w ++ t) cs) (MState pv' t cs) ->
  matches ic (Grp i r) (MState pv (w ++ t) cs) (MState pv' t ((i, w) :: cs)).
Proof.
  intros H. pose proof (M_Grp i H) as G. unfold set_group in G.
  cbn [prev rest caps] in G.
  rewrite (@consumed_app (MState pv (w ++ t) cs) (MState pv' t cs) w eq_refl)
    in G.
  exact G.
Qed.

(** X18: a marker TODO, FIXME, XXX or HACK followed by a colon, any white
    space and some text on the same line cannot go unnoticed: the document
    gets at least one TODO warning, wherever the marker stands. *)
Theorem todo_marker_flagged (pre marker blanks description post : string) :
  In marker ["TODO"; "FIXME"; "XXX"; "HACK"] ->
  forallb Char.is_space (Str.chars blanks) = true ->
  description <> "" -> lacks Char.newline description = true ->
  warnings
    (_check_todo_markers
       (pre +++ marker +++ ":" +++ blanks +++ description +++ post) init)
  <> [].
Proof.
  intros Hm Hb Nd Hd.
  assert (Nd' : Str.chars description <> [])
    by (destruct description; [contradiction | discriminate]).
  assert (F : findall false todo_pattern
                (pre +++ marker +++ ":" +++ blanks +++ description +++ post)
              <> []).
  { unfold findall. rewrite !chars_append.
    change (Str.chars ":") with [":"%char].
    set (pv0 := prev_after None (Str.chars pre)).
    set (tail1 := [":"%char] ++ Str.chars blanks ++ Str.chars description
                  ++ Str.chars post).
    set (tail2 := Str.chars blanks ++ Str.chars description
                  ++ Str.chars post).
    set (tail3 := Str.chars description ++ Str.chars post).
    set (c1 := [(1, Str.chars marker)]).
    apply findall_from_nonempty with
      (st' := MState
                (prev_after (prev_after (Some ":"%char) (Str.chars blanks))
                            (Str.chars description))
                (Str.chars post) ((2, Str.chars description) :: c1));
      [reflexivity|].
    fold pv0. unfold todo_pattern.
    apply M_Cat with
      (b := MState (prev_after pv0 (Str.chars marker)) tail1 c1).
    { apply matches_grp_intro. apply matches_alts; exact Hm. }
    apply M_Cat with (b := MState (Some ":"%char) tail2 c1).
    { apply matches_chr_step; reflexivity. }
    apply M_Cat with
      (b := MState (prev_after (Some ":"%char) (Str.chars blanks)) tail3 c1).
    { apply (@matches_star_run false space Char.is_space tail3 c1
               (fun pv c s H => @matches_cls_step false _ c1 pv c s H)
               (Str.chars blanks) (Some ":"%char) Hb). }
    apply matches_grp_intro.
    apply (@matches_plus_run false dot
             (fun c => negb (Ascii.eqb c Char.newline))
             (Str.chars post) c1
             (fun pv c s H => @matches_cls_step false _ c1 pv c s H)
             (Str.chars description)
             (prev_after (Some ":"%char) (Str.chars blanks)) Nd' Hd). }
  unfold _check_todo_markers.
  rewrite (fold_left_warnings
             (fun v m =>
                warnings_append
                  ("Found " +++ group 1 m +++ ": "
                   +++ Str.take 50 (group 2 m) +++ "...") v)
             (fun m => ["Found " +++ group 1 m +++ ": "
                        +++ Str.take 50 (group 2 m) +++ "..."]))
    by (intros v m; unfold extend, warnings_append; simpl;
        rewrite app_nil_r; reflexivity).
  cbn [warnings extend init app].
  destruct (findall false todo_pattern _) as [|m l]; [contradiction|].
  discriminate.
Qed.

Lemma todo_marker_flagged_witness :
  warnings
    (_check_todo_markers
       ("Intro. " +++ "HACK" +++ ":" +++ "  " +++ "remove this" +++ " soon")
       init)
  <> [].
Proof.
  apply todo_marker_flagged; try reflexivity; [simpl; auto | discriminate].
Defined.

(** X19: where every link found is external (http, https, mailto or an
    anchor), the link check leaves the validator as it was, whatever the
    disk holds. *)
Theorem external_links_ignored (project_root : path) (disk : FS.fs)
  (doc_path : path) (content : string) (v : validator) :
  (forall m, In m (findall false link_pattern content) ->
     existsb (fun p => Str.startswith p (group 2 m))
             ["http://"; "https://"; "mailto:"; "#"] = true) ->
  _check_broken_links project_root disk doc_path content v = Ok v.
Proof.
  unfold _check_broken_links.
  induction (findall false link_pattern content) as [|m l IH]; intros H;
    [reflexivity|].
  cbn [for_each]. unfold check_link at 1.
  rewrite (H m (or_introl eq_refl)). cbn [bind].
  apply IH. intros m' Hm'. apply H. right; exact Hm'.
Qed.

Lemma external_links_ignored_witness :
  _check_broken_links Scenario.root Scenario.disk Scenario.users_md
    "See [site](https://example.org/../x), [top](#top), [me](mailto:a@b.c)."
    init
  = Ok init.
Proof.
  apply external_links_ignored.
  intros m Hm. vm_compute in Hm.
  destruct Hm as [<-|[<-|[<-|[]]]]; vm_compute; reflexivity.
Defined.
